(** * API token service of the admin server

    Shallow embedding of
    [packages/core/admin/server/services/api-token.js].

    The service is JavaScript: its data are untyped JSON-like values, its
    effects are calls to collaborators (the query engine behind
    [strapi.query], [strapi.entityService], [strapi.config], [process] and
    Node's [crypto]).  The embedding keeps both: values are a small
    universe of JavaScript values, and every service function is a
    program that issues collaborator calls in the order the source issues
    them.  Programs are run against a handler; the handler for the
    persistence collaborator is an in-memory store. *)

From Stdlib Require Import ZArith List String Ascii Bool Lia DecimalString.
Import ListNotations.
Local Open Scope string_scope.
Local Open Scope Z_scope.

(** ** JavaScript values *)

#[local] Set Warnings "-register-all".

Inductive value : Type :=
| VUndefined
| VNull
| VBool (b : bool)
| VNum (n : Z)
| VStr (s : string)
| VArr (items : list value)
| VObj (fields : list (string * value)).

(** [new Error(msg)] as thrown by the service, named by the message it
    carries, and the errors of the runtime and of the collaborators. *)
Inductive error : Type :=
| InvalidPermissionsError
| MissingPermissionsError
| NotFoundError
| ConfigurationError
| TypeError (msg : string)
| EntropyError
| PersistenceError (msg : string).

Definition error_message (e : error) : string :=
  match e with
  | InvalidPermissionsError => "Non-custom tokens should not references permissions"
  | MissingPermissionsError => "Missing permissions attributes for custom token"
  | NotFoundError => "Token not found"
  | ConfigurationError => "Missing apiToken.salt. Please set apiToken.salt in config/admin.js"
  | EntropyError => "no entropy available"
  | TypeError msg => msg
  | PersistenceError msg => msg
  end.

Inductive res (A : Type) : Type :=
| Ok (a : A)
| Err (e : error).
Arguments Ok {A} a.
Arguments Err {A} e.

Definition res_bind {A B} (r : res A) (f : A -> res B) : res B :=
  match r with
  | Ok a => f a
  | Err e => Err e
  end.

(** ToBoolean.  Numbers are integers here, so there is no NaN. *)
Definition truthy (v : value) : bool :=
  match v with
  | VUndefined | VNull => false
  | VBool b => b
  | VNum n => negb (n =? 0)
  | VStr s => negb (String.eqb s "")
  | VArr _ | VObj _ => true
  end.

(** [a === b].  Primitives compare by value.  Arrays and objects compare
    by reference in JavaScript; two values met in different places of the
    service are never the same reference, so they compare unequal. *)
Definition strict_eq (a b : value) : bool :=
  match a, b with
  | VUndefined, VUndefined => true
  | VNull, VNull => true
  | VBool x, VBool y => Bool.eqb x y
  | VNum x, VNum y => x =? y
  | VStr x, VStr y => String.eqb x y
  | _, _ => false
  end.

(** [a || b] *)
Definition js_or (a b : value) : value := if truthy a then a else b.

Fixpoint lookup (k : string) (fields : list (string * value)) : option value :=
  match fields with
  | [] => None
  | (k', v) :: rest => if String.eqb k k' then Some v else lookup k rest
  end.

Definition index_key (i : nat) : string :=
  NilEmpty.string_of_uint (Nat.to_uint i).

Fixpoint indexed {A} (i : nat) (l : list A) : list (string * A) :=
  match l with
  | [] => []
  | x :: rest => (index_key i, x) :: indexed (S i) rest
  end.

Fixpoint chars (s : string) : list value :=
  match s with
  | EmptyString => []
  | String c rest => VStr (String c EmptyString) :: chars rest
  end.

(** The own enumerable properties of a value, in enumeration order: what
    [Object.keys], object spread and lodash's [omit] walk over. *)
Definition own_entries (v : value) : list (string * value) :=
  match v with
  | VObj fields => fields
  | VArr items => indexed 0 items
  | VStr s => indexed 0 (chars s)
  | VUndefined | VNull | VBool _ | VNum _ => []
  end.

(** [v.k] and the destructuring [({ k }) => ...]: a TypeError on
    [undefined] and [null], [undefined] for a missing property. *)
Definition get_prop (v : value) (k : string) : res value :=
  match v with
  | VUndefined => Err (TypeError "Cannot read properties of undefined")
  | VNull => Err (TypeError "Cannot read properties of null")
  | _ =>
      match lookup k (own_entries v) with
      | Some x => Ok x
      | None =>
          if String.eqb k "length" then
            match v with
            | VArr items => Ok (VNum (Z.of_nat (List.length items)))
            | VStr s => Ok (VNum (Z.of_nat (String.length s)))
            | _ => Ok VUndefined
            end
          else Ok VUndefined
      end
  end.

(** lodash's [property(k)], the iteratee behind the ['action'] shorthand:
    like [v.k] but [undefined] on [undefined] and [null]. *)
Definition property (k : string) (v : value) : value :=
  match get_prop v k with
  | Ok x => x
  | Err _ => VUndefined
  end.

(** [Object.keys(v)] *)
Definition object_keys (v : value) : res (list string) :=
  match v with
  | VUndefined | VNull =>
      Err (TypeError "Cannot convert undefined or null to object")
  | _ => Ok (List.map fst (own_entries v))
  end.

(** [{ ...fields, k: v }] and [Object.assign(fields, { k: v })]: an
    existing key keeps its place, a new one goes last. *)
Fixpoint obj_set (k : string) (v : value) (fields : list (string * value))
  : list (string * value) :=
  match fields with
  | [] => [(k, v)]
  | (k', v') :: rest =>
      if String.eqb k k' then (k, v) :: rest
      else (k', v') :: obj_set k v rest
  end.

(** lodash/fp [omit(k, v)] *)
Definition omit (k : string) (v : value) : value :=
  VObj (List.filter (fun kv => negb (String.eqb k (fst kv))) (own_entries v)).

(** [isArrayLikeObject] of lodash, on the values modelled: arrays. *)
Definition as_array (v : value) : option (list value) :=
  match v with
  | VArr items => Some items
  | _ => None
  end.

(** lodash/fp [differenceBy(k, array, values)]: the elements of [array]
    whose [property(k)] is not the [property(k)] of an element of
    [values]; order and repetitions of [array] are kept.  An [array] that
    is no array gives [[]], a [values] that is no array counts as empty. *)
Definition differenceBy (k : string) (array values : value) : list value :=
  match as_array array with
  | None => []
  | Some items =>
      let keys :=
        List.map (property k)
                 (match as_array values with Some vs => vs | None => [] end) in
      List.filter
        (fun x => negb (List.existsb (strict_eq (property k x)) keys))
        items
  end.

(** lodash/fp [map(k, list)] with the property shorthand. *)
Definition map_prop (k : string) (items : list value) : list value :=
  List.map (property k) items.

Fixpoint map_res {A B} (f : A -> res B) (l : list A) : res (list B) :=
  match l with
  | [] => Ok []
  | x :: rest =>
      res_bind (f x) (fun y =>
      res_bind (map_res f rest) (fun ys => Ok (y :: ys)))
  end.

(** [v.map(f)] where [f] may throw: only arrays have the method. *)
Definition array_map (f : value -> res value) (v : value) : res value :=
  match v with
  | VArr items => res_bind (map_res f items) (fun ys => Ok (VArr ys))
  | VUndefined => Err (TypeError "Cannot read properties of undefined")
  | VNull => Err (TypeError "Cannot read properties of null")
  | _ => Err (TypeError "map is not a function")
  end.

(** ** Programs over the collaborators

    One constructor per collaborator entry point the service touches:
    [strapi.query(uid).method(params)], [strapi.entityService.load],
    [strapi.config.get]/[set], [process.env], [process.emitWarning],
    [crypto.randomBytes(n).toString('hex')] and
    [crypto.createHmac(alg, key).update(data).digest('hex')]. *)

Inductive call : Type :=
| Query (uid method : string) (params : value)
| EntityLoad (uid : string) (entity : value) (field : string)
| ConfigGet (key : string)
| ConfigSet (key : string) (v : value)
| EnvGet (name : string)
| EmitWarning (msg : string)
| RandomBytesHex (n : Z)
| HmacHex (alg : string) (key data : value).

(** An [async] function body: it returns, throws, or awaits a
    collaborator and goes on with the answer. *)
Inductive prog (A : Type) : Type :=
| Ret (a : A)
| Throw (e : error)
| Do (c : call) (k : value -> prog A).
Arguments Ret {A} a.
Arguments Throw {A} e.
Arguments Do {A} c k.

Fixpoint bind {A B} (p : prog A) (f : A -> prog B) : prog B :=
  match p with
  | Ret a => f a
  | Throw e => Throw e
  | Do c k => Do c (fun v => bind (k v) f)
  end.

Definition lift {A} (r : res A) : prog A :=
  match r with
  | Ok a => Ret a
  | Err e => Throw e
  end.

Definition perform (c : call) : prog value := Do c Ret.

Declare Scope prog_scope.
Delimit Scope prog_scope with prog.
Notation "x <- p ;; q" := (bind p (fun x => q))
  (at level 61, p at next level, right associativity) : prog_scope.
Notation "p ;; q" := (bind p (fun _ => q))
  (at level 61, right associativity) : prog_scope.
Local Open Scope prog_scope.

(** Running a program against a handler of the collaborators: the
    outcome, the final state of the collaborators, and the calls issued,
    in order. *)
Section Run.
Context {S : Type} (handler : call -> S -> res value * S).

Fixpoint run {A} (p : prog A) (s : S) : res A * S * list call :=
  match p with
  | Ret a => (Ok a, s, [])
  | Throw e => (Err e, s, [])
  | Do c k =>
      match handler c s with
      | (Ok v, s') =>
          let '(r, s'', t) := run (k v) s' in (r, s'', c :: t)
      | (Err e, s') => (Err e, s', [c])
      end
  end.

Definition outcome {A} (p : prog A) (s : S) : res A := fst (fst (run p s)).
Definition final {A} (p : prog A) (s : S) : S := snd (fst (run p s)).
Definition trace {A} (p : prog A) (s : S) : list call := snd (run p s).
End Run.

(** ** The service

    The module mirrors [module.exports] of the source file. *)

Module ApiToken.

Definition SELECT_FIELDS : value :=
  VArr [VStr "id"; VStr "name"; VStr "description"; VStr "type"; VStr "createdAt"].

Definition POPULATE_FIELDS : value := VArr [VStr "permissions"].

Definition assertCustomTokenPermissionsValidity (attributes : value) : res unit :=
  res_bind (get_prop attributes "type") (fun type =>
  res_bind (get_prop attributes "permissions") (fun permissions =>
  if negb (strict_eq type (VStr "custom")) && truthy permissions then
    Err InvalidPermissionsError
  else if strict_eq type (VStr "custom") && negb (truthy permissions) then
    Err MissingPermissionsError
  else Ok tt)).

(** A default parameter [(p = d)] replaces [undefined] only. *)
Definition default_param (v d : value) : value :=
  match v with
  | VUndefined => d
  | _ => v
  end.

Definition getBy (whereParams : value) : prog value :=
  let whereParams := default_param whereParams (VObj []) in
  keys <- lift (object_keys whereParams) ;;
  if (List.length keys =? 0)%nat then Ret VNull
  else
    perform (Query "admin::api-token" "findOne"
               (VObj [("select", SELECT_FIELDS);
                      ("populate", POPULATE_FIELDS);
                      ("where", whereParams)])).

(** [exists] of the source ([exists] is a keyword here). *)
Definition exists_ (whereParams : value) : prog value :=
  let whereParams := default_param whereParams (VObj []) in
  apiToken <- getBy whereParams ;;
  Ret (VBool (truthy apiToken)).

Definition hash (accessKey : value) : prog value :=
  salt <- perform (ConfigGet "admin.apiToken.salt") ;;
  perform (HmacHex "sha512" salt accessKey).

Definition create (attributes : value) : prog value :=
  accessKey <- perform (RandomBytesHex 128) ;;
  lift (assertCustomTokenPermissionsValidity attributes) ;;
  digest <- hash accessKey ;;
  apiToken <- perform
    (Query "admin::api-token" "create"
       (VObj [("select", SELECT_FIELDS);
              ("populate", POPULATE_FIELDS);
              ("data", VObj (obj_set "accessKey" digest
                               (own_entries (omit "permissions" attributes))))])) ;;
  let result := obj_set "accessKey" accessKey (own_entries apiToken) in
  type <- lift (get_prop attributes "type") ;;
  if strict_eq type (VStr "custom") then
    perms <- lift (get_prop attributes "permissions") ;;
    data <- lift (array_map
                    (fun action =>
                       res_bind (get_prop apiToken "id") (fun id =>
                       Ok (VObj [("action", action); ("token", id)])))
                    perms) ;;
    permissions <- perform
      (Query "admin::token-permission" "createMany" (VObj [("data", data)])) ;;
    Ret (VObj (obj_set "permissions" permissions result))
  else Ret (VObj result).

Definition checkSaltIsDefined : prog value :=
  salt <- perform (ConfigGet "admin.apiToken.salt") ;;
  if truthy salt then Ret VUndefined
  else
    legacy <- perform (EnvGet "API_TOKEN_SALT") ;;
    if truthy legacy then
      perform (EmitWarning "[deprecated] In future versions, Strapi will stop reading directly from the environment variable API_TOKEN_SALT. Please set apiToken.salt in config/admin.js instead.") ;;
      legacy' <- perform (EnvGet "API_TOKEN_SALT") ;;
      perform (ConfigSet "admin.apiToken.salt" legacy') ;;
      Ret VUndefined
    else Throw ConfigurationError.

Definition list : prog value :=
  perform (Query "admin::api-token" "findMany"
             (VObj [("select", SELECT_FIELDS);
                    ("populate", POPULATE_FIELDS);
                    ("orderBy", VObj [("name", VStr "ASC")])])).

Definition revoke (id : value) : prog value :=
  perform (Query "admin::api-token" "delete"
             (VObj [("select", SELECT_FIELDS);
                    ("populate", POPULATE_FIELDS);
                    ("where", VObj [("id", id)])])).

Definition getById (id : value) : prog value := getBy (VObj [("id", id)]).

Definition getByName (name : value) : prog value := getBy (VObj [("name", name)]).

Definition update (id attributes : value) : prog value :=
  oldToken <- perform
    (Query "admin::api-token" "findOne" (VObj [("where", VObj [("id", id)])])) ;;
  if negb (truthy oldToken) then Throw NotFoundError
  else
    newType <- lift (get_prop attributes "type") ;;
    oldType <- lift (if truthy newType then Ok VUndefined
                     else get_prop oldToken "type") ;;
    lift (assertCustomTokenPermissionsValidity
            (VObj (obj_set "type" (js_or newType oldType)
                     (own_entries attributes)))) ;;
    token <- perform
      (Query "admin::api-token" "update"
         (VObj [("select", SELECT_FIELDS);
                ("populate", POPULATE_FIELDS);
                ("where", VObj [("id", id)]);
                ("data", omit "permissions" attributes)])) ;;
    type <- lift (get_prop token "type") ;;
    (if strict_eq type (VStr "custom") then
       stored <- lift (get_prop token "permissions") ;;
       desired <- lift (get_prop attributes "permissions") ;;
       let permissionsToDelete := differenceBy "action" stored desired in
       let permissionsToCreate := differenceBy "action" desired stored in
       perform
         (Query "admin::token-permission" "deleteMany"
            (VObj [("where",
                    VObj [("action",
                           VArr (map_prop "action" permissionsToDelete))])])) ;;
       data <- lift (array_map
                       (fun p =>
                          res_bind (get_prop p "action") (fun action =>
                          Ok (VObj [("action", action); ("token", id)])))
                       (VArr permissionsToCreate)) ;;
       perform
         (Query "admin::token-permission" "createMany" (VObj [("data", data)]))
     else Ret VUndefined) ;;
    permissions <- perform (EntityLoad "admin::api-token" token "permissions") ;;
    Ret (VObj (obj_set "permissions" permissions (own_entries token))).

End ApiToken.

(** ** The collaborators *)

Record store : Type := {
  st_tokens : list value;
  st_permissions : list value;
  st_config : list (string * value);
  st_env : list (string * value);
  st_warnings : list string;
  st_entropy : list string;
  st_next_id : Z;
  st_clock : Z
}.

Definition with_tokens (s : store) (rows : list value) : store :=
  {| st_tokens := rows; st_permissions := st_permissions s;
     st_config := st_config s; st_env := st_env s;
     st_warnings := st_warnings s; st_entropy := st_entropy s;
     st_next_id := st_next_id s; st_clock := st_clock s |}.

Definition with_permissions (s : store) (rows : list value) : store :=
  {| st_tokens := st_tokens s; st_permissions := rows;
     st_config := st_config s; st_env := st_env s;
     st_warnings := st_warnings s; st_entropy := st_entropy s;
     st_next_id := st_next_id s; st_clock := st_clock s |}.

Definition with_next_id (s : store) (n : Z) : store :=
  {| st_tokens := st_tokens s; st_permissions := st_permissions s;
     st_config := st_config s; st_env := st_env s;
     st_warnings := st_warnings s; st_entropy := st_entropy s;
     st_next_id := n; st_clock := st_clock s |}.

(** Modelled from the spec: the query filter of the persistence
    collaborator, which is not in this file.  A row matches when each
    field of the filter equals the row's field, an array in the filter
    standing for any of its elements. *)
Definition matches (filter row : value) : bool :=
  List.forallb
    (fun kv =>
       match snd kv with
       | VArr alternatives =>
           List.existsb (strict_eq (property (fst kv) row)) alternatives
       | v => strict_eq (property (fst kv) row) v
       end)
    (own_entries filter).

(** Modelled from the spec: the relation of a token to its permissions,
    through the [token] field of the permission rows. *)
Definition permissions_of (s : store) (token : value) : list value :=
  List.filter
    (fun p => strict_eq (property "token" p) (property "id" token))
    (st_permissions s).

(** Modelled from the spec: the projection of the persistence
    collaborator.  [select] keeps the named fields of the row, in the
    order of [select]; without [select] the whole row is returned. *)
Definition selected (params row : value) : list (string * value) :=
  match property "select" params with
  | VArr names =>
      List.flat_map
        (fun n =>
           match n with
           | VStr k =>
               match lookup k (own_entries row) with
               | Some v => [(k, v)]
               | None => []
               end
           | _ => []
           end)
        names
  | _ => own_entries row
  end.

(** Modelled from the spec: [populate: ['permissions']] loads the
    permissions of the row into its [permissions] field. *)
Definition present (s : store) (params row : value) : value :=
  let fields := selected params row in
  match property "populate" params with
  | VArr rels =>
      if List.existsb (strict_eq (VStr "permissions")) rels then
        VObj (obj_set "permissions" (VArr (permissions_of s row)) fields)
      else VObj fields
  | _ => VObj fields
  end.

Definition name_key (row : value) : string :=
  match property "name" row with
  | VStr s => s
  | _ => ""
  end.

Fixpoint insert_by_name (row : value) (sorted : list value) : list value :=
  match sorted with
  | [] => [row]
  | r :: rest =>
      if String.leb (name_key row) (name_key r) then row :: r :: rest
      else r :: insert_by_name row rest
  end.

Definition sort_by_name (rows : list value) : list value :=
  List.fold_right insert_by_name [] rows.

(** Writing [data] over a row; fields given as [undefined] are not
    written. *)
Definition merge (data : value) (row : list (string * value))
  : list (string * value) :=
  List.fold_left
    (fun acc kv =>
       match snd kv with
       | VUndefined => acc
       | v => obj_set (fst kv) v acc
       end)
    (own_entries data) row.

Fixpoint replace_first (f : value -> bool) (new : value) (rows : list value)
  : list value :=
  match rows with
  | [] => []
  | r :: rest => if f r then new :: rest else r :: replace_first f new rest
  end.

Fixpoint remove_first (f : value -> bool) (rows : list value) : list value :=
  match rows with
  | [] => []
  | r :: rest => if f r then rest else r :: remove_first f rest
  end.

Fixpoint number_rows (n : Z) (data : list value) : list value :=
  match data with
  | [] => []
  | d :: rest =>
      VObj (obj_set "id" (VNum n) (own_entries d)) :: number_rows (n + 1) rest
  end.

(** Modelled from the spec: the operations of the persistence
    collaborator on the token entity ([findOne], [findMany], [create],
    [update], [delete]); deleting a token deletes its permissions. *)
Definition token_query (method : string) (params : value) (s : store)
  : res value * store :=
  let filter := property "where" params in
  if String.eqb method "findOne" then
    match List.find (matches filter) (st_tokens s) with
    | Some row => (Ok (present s params row), s)
    | None => (Ok VNull, s)
    end
  else if String.eqb method "findMany" then
    let rows := List.filter (matches filter) (st_tokens s) in
    let rows :=
      if strict_eq (property "name" (property "orderBy" params)) (VStr "ASC")
      then sort_by_name rows else rows in
    (Ok (VArr (List.map (present s params) rows)), s)
  else if String.eqb method "create" then
    let row :=
      VObj (obj_set "createdAt" (VNum (st_clock s))
              (obj_set "id" (VNum (st_next_id s))
                 (own_entries (property "data" params)))) in
    let s' := with_next_id (with_tokens s (st_tokens s ++ [row]))
                           (st_next_id s + 1) in
    (Ok (present s' params row), s')
  else if String.eqb method "update" then
    match List.find (matches filter) (st_tokens s) with
    | Some row =>
        let row' := VObj (merge (property "data" params) (own_entries row)) in
        let s' := with_tokens s (replace_first (matches filter) row' (st_tokens s)) in
        (Ok (present s' params row'), s')
    | None => (Ok VNull, s)
    end
  else if String.eqb method "delete" then
    match List.find (matches filter) (st_tokens s) with
    | Some row =>
        let s' :=
          with_permissions
            (with_tokens s (remove_first (matches filter) (st_tokens s)))
            (List.filter
               (fun p => negb (strict_eq (property "token" p) (property "id" row)))
               (st_permissions s)) in
        (Ok (present s params row), s')
    | None => (Ok VNull, s)
    end
  else (Err (PersistenceError "unsupported operation"), s).

(** Modelled from the spec: the operations of the persistence
    collaborator on the permission entity ([deleteMany], [createMany]). *)
Definition permission_query (method : string) (params : value) (s : store)
  : res value * store :=
  if String.eqb method "deleteMany" then
    (Ok VUndefined,
     with_permissions s
       (List.filter (fun p => negb (matches (property "where" params) p))
                    (st_permissions s)))
  else if String.eqb method "createMany" then
    match property "data" params with
    | VArr data =>
        let rows := number_rows (st_next_id s) data in
        (Ok (VArr rows),
         with_next_id (with_permissions s (st_permissions s ++ rows))
                      (st_next_id s + Z.of_nat (List.length data)))
    | _ => (Err (PersistenceError "data must be an array"), s)
    end
  else (Err (PersistenceError "unsupported operation"), s).

Section Strapi.
(** Node's HMAC-SHA512 with hex output, as a function of key and data. *)
Variable hmac_sha512_hex : string -> string -> string.

(** Modelled from the spec: the collaborators of the service, as one
    handler: the persistence collaborator over the store, the
    process-wide configuration, the environment, and Node's [crypto]
    ([createHmac] refuses a key or data that is no string;
    [randomBytes] fails when no entropy is left). *)
Definition strapi (c : call) (s : store) : res value * store :=
  match c with
  | Query uid method params =>
      if String.eqb uid "admin::api-token" then token_query method params s
      else if String.eqb uid "admin::token-permission" then
        permission_query method params s
      else (Err (PersistenceError "unknown model"), s)
  | EntityLoad uid entity field =>
      if String.eqb uid "admin::api-token" && String.eqb field "permissions"
      then (Ok (VArr (permissions_of s entity)), s)
      else (Err (PersistenceError "unknown relation"), s)
  | ConfigGet key =>
      (Ok (match lookup key (st_config s) with
           | Some v => v
           | None => VUndefined
           end), s)
  | ConfigSet key v =>
      (Ok VUndefined,
       {| st_tokens := st_tokens s; st_permissions := st_permissions s;
          st_config := obj_set key v (st_config s); st_env := st_env s;
          st_warnings := st_warnings s; st_entropy := st_entropy s;
          st_next_id := st_next_id s; st_clock := st_clock s |})
  | EnvGet name =>
      (Ok (match lookup name (st_env s) with
           | Some v => v
           | None => VUndefined
           end), s)
  | EmitWarning msg =>
      (Ok VUndefined,
       {| st_tokens := st_tokens s; st_permissions := st_permissions s;
          st_config := st_config s; st_env := st_env s;
          st_warnings := st_warnings s ++ [msg]; st_entropy := st_entropy s;
          st_next_id := st_next_id s; st_clock := st_clock s |})
  | RandomBytesHex n =>
      match st_entropy s with
      | bytes :: rest =>
          (Ok (VStr bytes),
           {| st_tokens := st_tokens s; st_permissions := st_permissions s;
              st_config := st_config s; st_env := st_env s;
              st_warnings := st_warnings s; st_entropy := rest;
              st_next_id := st_next_id s; st_clock := st_clock s |})
      | [] => (Err EntropyError, s)
      end
  | HmacHex alg key data =>
      match key, data with
      | VStr k, VStr d => (Ok (VStr (hmac_sha512_hex k d)), s)
      | VStr _, _ =>
          (Err (TypeError "The data argument must be of type string"), s)
      | _, _ =>
          (Err (TypeError "The key argument must be of type string"), s)
      end
  end.
End Strapi.

(** A stand-in for the HMAC in concrete runs: the digest written as a
    term over key and data. *)
Definition symbolic_hmac (key data : string) : string :=
  "hmac-sha512(" ++ key ++ "," ++ data ++ ")".

(** The errors a program throws itself, whatever the collaborators
    answer: the [throw] statements reachable in its body. *)
Fixpoint may_throw {A} (p : prog A) (e : error) : Prop :=
  match p with
  | Ret _ => False
  | Throw e' => e' = e
  | Do _ k => exists v, may_throw (k v) e
  end.

(** The errors the collaborators of [strapi] answer with. *)
Definition collaborator_error (e : error) : Prop :=
  match e with
  | TypeError _ | PersistenceError _ | EntropyError => True
  | _ => False
  end.

Definition validation_error (e : error) : Prop :=
  e = InvalidPermissionsError \/ e = MissingPermissionsError.

(** [type === 'custom'] *)
Definition is_custom (type : value) : bool := strict_eq type (VStr "custom").

(** The truth value of [attributes.permissions] in a condition: whether
    the attribute is there, whatever it holds. *)
Definition permissions_present (attributes : value) : bool :=
  truthy (property "permissions" attributes).

(** [strapi.config.get('admin.apiToken.salt')] and
    [process.env.API_TOKEN_SALT] in a store. *)
Definition configured_salt (s : store) : value :=
  match lookup "admin.apiToken.salt" (st_config s) with
  | Some v => v
  | None => VUndefined
  end.

Definition legacy_salt (s : store) : value :=
  match lookup "API_TOKEN_SALT" (st_env s) with
  | Some v => v
  | None => VUndefined
  end.

(** The fields a response may carry: [SELECT_FIELDS] and the populated
    relation. *)
Definition public_fields : list string :=
  ["id"; "name"; "description"; "type"; "createdAt"; "permissions"].

Definition only_public (v : value) : Prop :=
  forall k, In k (List.map fst (own_entries v)) -> In k public_fields.

(** ** Sample data for the concrete runs *)

Definition token_row (id : Z) (name type digest : string) : value :=
  VObj [("id", VNum id); ("name", VStr name); ("type", VStr type);
        ("accessKey", VStr digest); ("createdAt", VNum 0)].

Definition permission_row (id : Z) (action : string) (token : Z) : value :=
  VObj [("id", VNum id); ("action", VStr action); ("token", VNum token)].

(** Token 1 is custom with permissions [a] and [b]; token 2 is custom
    with permission [a]; token 3 is read-only. *)
Definition sample_store : store :=
  {| st_tokens := [token_row 1 "t" "custom" "d1";
                   token_row 2 "u" "custom" "d2";
                   token_row 3 "r" "read-only" "d3"];
     st_permissions := [permission_row 10 "a" 1;
                        permission_row 11 "b" 1;
                        permission_row 12 "a" 2];
     st_config := [("admin.apiToken.salt", VStr "salt")];
     st_env := [];
     st_warnings := [];
     st_entropy := ["k1"; "k2"];
     st_next_id := 100;
     st_clock := 7 |}.

(** The same store before any salt is configured. *)
Definition unsalted_store : store :=
  {| st_tokens := st_tokens sample_store;
     st_permissions := st_permissions sample_store;
     st_config := [];
     st_env := [];
     st_warnings := [];
     st_entropy := st_entropy sample_store;
     st_next_id := 100;
     st_clock := 7 |}.

Definition sample_strapi : call -> store -> res value * store :=
  strapi symbolic_hmac.

(** A list of action strings, as [create] documents [permissions]. *)
Definition strings (l : list string) : value := VArr (List.map VStr l).

(** A list of objects carrying an [action] field. *)
Definition action_objects (l : list string) : value :=
  VArr (List.map (fun a => VObj [("action", VStr a)]) l).

(** The calls of a trace that go to the permission entity. *)
Definition permission_calls (t : list call) : list call :=
  List.filter
    (fun c =>
       match c with
       | Query uid _ _ => String.eqb uid "admin::token-permission"
       | _ => false
       end)
    t.

Definition delete_many (actions : list value) : call :=
  Query "admin::token-permission" "deleteMany"
        (VObj [("where", VObj [("action", VArr actions)])]).

Definition create_many (rows : list value) : call :=
  Query "admin::token-permission" "createMany" (VObj [("data", VArr rows)]).

Definition new_permission (action token : value) : value :=
  VObj [("action", action); ("token", token)].

Definition token_ref (id : Z) : value := VObj [("id", VNum id)].

(** ** Names for the calls and states of the statements *)

Definition find_by_id (id : value) : call :=
  Query "admin::api-token" "findOne" (VObj [("where", VObj [("id", id)])]).

Definition create_token (data : value) : call :=
  Query "admin::api-token" "create"
        (VObj [("select", ApiToken.SELECT_FIELDS);
               ("populate", ApiToken.POPULATE_FIELDS);
               ("data", data)]).

Definition without_permissions (fields : list (string * value)) :=
  List.filter (fun kv => negb (String.eqb "permissions" (fst kv))) fields.

(** The store with the salt only in the environment. *)
Definition legacy_store : store :=
  {| st_tokens := st_tokens sample_store;
     st_permissions := st_permissions sample_store;
     st_config := [];
     st_env := [("API_TOKEN_SALT", VStr "old-salt")];
     st_warnings := [];
     st_entropy := st_entropy sample_store;
     st_next_id := 100;
     st_clock := 7 |}.

(** The value a collaborator answered, [null] if it failed. *)
Definition value_of (r : res value) : value :=
  match r with
  | Ok v => v
  | Err _ => VNull
  end.

Definition answer (r : res value * store) : value := value_of (fst r).

Definition update_token (id data : value) : call :=
  Query "admin::api-token" "update"
        (VObj [("select", ApiToken.SELECT_FIELDS);
               ("populate", ApiToken.POPULATE_FIELDS);
               ("where", VObj [("id", id)]);
               ("data", data)]).

Definition load_permissions (token : value) : call :=
  EntityLoad "admin::api-token" token "permissions".

Definition nullish (v : value) : bool :=
  match v with
  | VUndefined | VNull => true
  | _ => false
  end.

(** The rest of [update] once the token is written: the reconciliation
    of the permissions and the response. *)
Definition after_write (id attributes token : value) : prog value :=
  (type <- lift (get_prop token "type") ;;
   (if strict_eq type (VStr "custom") then
      stored <- lift (get_prop token "permissions") ;;
      desired <- lift (get_prop attributes "permissions") ;;
      let permissionsToDelete := differenceBy "action" stored desired in
      let permissionsToCreate := differenceBy "action" desired stored in
      perform
        (Query "admin::token-permission" "deleteMany"
           (VObj [("where",
                   VObj [("action",
                          VArr (map_prop "action" permissionsToDelete))])])) ;;
      data <- lift (array_map
                      (fun p =>
                         res_bind (get_prop p "action") (fun action =>
                         Ok (VObj [("action", action); ("token", id)])))
                      (VArr permissionsToCreate)) ;;
      perform
        (Query "admin::token-permission" "createMany" (VObj [("data", data)]))
    else Ret VUndefined) ;;
   permissions <- perform (EntityLoad "admin::api-token" token "permissions") ;;
   Ret (VObj (obj_set "permissions" permissions (own_entries token))))%prog.

Definition prepend {S A} (t : list call) (r : res A * S * list call)
  : res A * S * list call :=
  let '(a, s, t') := r in (a, s, (t ++ t')%list).

(** The store after the two calls of a reconciliation. *)
Definition reconciled (s : store) (deleted created : list value) : store :=
  let s' :=
    with_permissions s
      (List.filter
         (fun p => negb (List.existsb (strict_eq (property "action" p)) deleted))
         (st_permissions s)) in
  with_next_id
    (with_permissions s' (st_permissions s' ++ number_rows (st_next_id s') created))
    (st_next_id s' + Z.of_nat (List.length created)).

Definition set_salt (v : value) : call := ConfigSet "admin.apiToken.salt" v.

Definition find_one (criteria : value) : call :=
  Query "admin::api-token" "findOne"
        (VObj [("select", ApiToken.SELECT_FIELDS);
               ("populate", ApiToken.POPULATE_FIELDS);
               ("where", criteria)]).

(** * Properties *)

(** ** Running programs *)

Section RunFacts.
Context {S : Type} (h : call -> S -> res value * S).

Lemma run_bind {A B} (p : prog A) (f : A -> prog B) (s : S) :
  run h (bind p f) s =
  match run h p s with
  | (Ok a, s', t) =>
      let '(r, s'', t') := run h (f a) s' in (r, s'', (t ++ t')%list)
  | (Err e, s', t) => (Err e, s', t)
  end.
Proof.
  revert s. induction p as [a | e | c k IH]; intros s; simpl.
  - destruct (run h (f a) s) as [[r s''] t']. reflexivity.
  - reflexivity.
  - destruct (h c s) as [[v | e] s']; [ | reflexivity ].
    rewrite IH.
    destruct (run h (k v) s') as [[[a | e] s''] t]; [ | reflexivity ].
    destruct (run h (f a) s'') as [[r s3] t']. reflexivity.
Qed.

Lemma run_perform (c : call) (s : S) :
  run h (perform c) s = (fst (h c s), snd (h c s), [c]).
Proof.
  unfold perform. simpl.
  destruct (h c s) as [[v | e] s']; reflexivity.
Qed.

Lemma run_lift {A} (r : res A) (s : S) : run h (lift r) s = (r, s, []).
Proof. destruct r; reflexivity. Qed.

Lemma outcome_bind {A B} (p : prog A) (f : A -> prog B) (s : S) :
  outcome h (bind p f) s =
  match outcome h p s with
  | Ok a => outcome h (f a) (final h p s)
  | Err e => Err e
  end.
Proof.
  unfold outcome, final. rewrite run_bind.
  destruct (run h p s) as [[[a | e] s'] t]; simpl; [ | reflexivity ].
  destruct (run h (f a) s') as [[r s''] t']. reflexivity.
Qed.

Lemma outcome_perform (c : call) (s : S) :
  outcome h (perform c) s = fst (h c s).
Proof. unfold outcome. rewrite run_perform. reflexivity. Qed.

Lemma final_perform (c : call) (s : S) :
  final h (perform c) s = snd (h c s).
Proof. unfold final. rewrite run_perform. reflexivity. Qed.

Lemma outcome_lift {A} (r : res A) (s : S) : outcome h (lift r) s = r.
Proof. unfold outcome. rewrite run_lift. reflexivity. Qed.

Lemma final_lift {A} (r : res A) (s : S) : final h (lift r) s = s.
Proof. unfold final. rewrite run_lift. reflexivity. Qed.

(** An error of a run was thrown by the program or answered by a
    collaborator. *)
Lemma outcome_error_origin {A} (p : prog A) (s : S) (e : error) :
  outcome h p s = Err e ->
  may_throw p e \/ exists c s0, fst (h c s0) = Err e.
Proof.
  revert s. induction p as [a | e' | c k IH]; intros s; unfold outcome; simpl.
  - discriminate.
  - intros [= ->]. left. reflexivity.
  - destruct (h c s) as [[v | e'] s'] eqn:Hc.
    + intros H.
      destruct (run h (k v) s') as [[r s''] t] eqn:Hr. simpl in H.
      destruct (IH v s') as [Hk | Hk].
      * unfold outcome. rewrite Hr. exact H.
      * left. exists v. exact Hk.
      * right. exact Hk.
    + simpl. intros [= ->]. right. exists c, s. rewrite Hc. reflexivity.
Qed.
End RunFacts.

Lemma may_throw_bind {A B} (p : prog A) (f : A -> prog B) (e : error) :
  may_throw (bind p f) e ->
  may_throw p e \/ exists a, may_throw (f a) e.
Proof.
  induction p as [a | e' | c k IH]; simpl.
  - intros H. right. exists a. exact H.
  - intros H. left. exact H.
  - intros [v Hv]. destruct (IH v Hv) as [H | H].
    + left. exists v. exact H.
    + right. exact H.
Qed.

Lemma may_throw_perform (c : call) (e : error) : ~ may_throw (perform c) e.
Proof. unfold perform. simpl. intros [v []]. Qed.

Lemma may_throw_lift {A} (r : res A) (e : error) :
  may_throw (lift r) e -> r = Err e.
Proof. destruct r; simpl; [ intros [] | intros -> ]; reflexivity. Qed.

Lemma strapi_errors hmac (c : call) (s : store) (e : error) :
  fst (strapi hmac c s) = Err e -> collaborator_error e.
Proof.
  destruct c; simpl.
  - unfold token_query, permission_query.
    repeat match goal with
           | |- context [if ?b then _ else _] => destruct b
           | |- context [match ?x with _ => _ end] => destruct x
           end; simpl; intros [= <-]; exact I.
  - destruct (_ && _); simpl; intros [= <-]; exact I.
  - simpl. discriminate.
  - simpl. discriminate.
  - simpl. discriminate.
  - simpl. discriminate.
  - destruct (st_entropy s); simpl; intros [= <-]; exact I.
  - destruct key, data; simpl; intros [= <-]; exact I.
Qed.

(** ** Values *)

Lemma get_prop_object (fields : list (string * value)) (k : string) :
  get_prop (VObj fields) k = Ok (property k (VObj fields)).
Proof.
  unfold property. simpl.
  destruct (lookup k fields); [ reflexivity | ].
  destruct (String.eqb k "length"); reflexivity.
Qed.

Lemma get_prop_truthy (v : value) (k : string) :
  truthy v = true -> get_prop v k = Ok (property k v).
Proof.
  unfold property. destruct v; simpl; try discriminate; intros _;
    repeat match goal with
           | |- context [match ?x with _ => _ end] => destruct x
           end; reflexivity.
Qed.

Lemma get_prop_error (v : value) (k : string) (e : error) :
  get_prop v k = Err e -> collaborator_error e.
Proof.
  destruct v; simpl;
    repeat match goal with
           | |- context [match ?x with _ => _ end] => destruct x
           end; intros [= <-] || discriminate; exact I.
Qed.

Lemma map_res_error {A B} (f : A -> res B) (l : Datatypes.list A) (e : error) :
  (forall x e', f x = Err e' -> collaborator_error e') ->
  map_res f l = Err e -> collaborator_error e.
Proof.
  intros Hf. induction l as [| x rest IH]; simpl; [ discriminate | ].
  destruct (f x) as [y | e'] eqn:Hx; simpl.
  - destruct (map_res f rest) as [ys | e'']; simpl; [ discriminate | ].
    intros [= <-]. apply IH. reflexivity.
  - intros [= <-]. exact (Hf _ _ Hx).
Qed.

Lemma array_map_error (f : value -> res value) (v : value) (e : error) :
  (forall x e', f x = Err e' -> collaborator_error e') ->
  array_map f v = Err e -> collaborator_error e.
Proof.
  intros Hf. destruct v; simpl; try (intros [= <-]; exact I).
  destruct (map_res f items) as [ys | e'] eqn:Hm; simpl; [ discriminate | ].
  intros [= <-]. exact (map_res_error f items e' Hf Hm).
Qed.

Lemma lookup_obj_set_same (k : string) (v : value) fields :
  lookup k (obj_set k v fields) = Some v.
Proof.
  induction fields as [| [k' v'] rest IH]; simpl.
  - rewrite String.eqb_refl. reflexivity.
  - destruct (String.eqb k k') eqn:E; simpl.
    + rewrite String.eqb_refl. reflexivity.
    + rewrite E. exact IH.
Qed.

Lemma lookup_obj_set_other (k k' : string) (v : value) fields :
  String.eqb k' k = false ->
  lookup k' (obj_set k v fields) = lookup k' fields.
Proof.
  intros Hk. induction fields as [| [k0 v0] rest IH]; simpl.
  - rewrite Hk. reflexivity.
  - destruct (String.eqb k k0) eqn:E; simpl.
    + apply String.eqb_eq in E. subst k0. rewrite Hk. reflexivity.
    + rewrite IH. reflexivity.
Qed.

Lemma keys_obj_set (k : string) (v : value) fields (x : string) :
  In x (List.map fst (obj_set k v fields)) ->
  x = k \/ In x (List.map fst fields).
Proof.
  induction fields as [| [k' v'] rest IH]; simpl.
  - intros [<- | []]. left. reflexivity.
  - destruct (String.eqb k k') eqn:E; simpl.
    + intros [<- | H]; [ left; reflexivity | right; right; exact H ].
    + intros [<- | H]; [ right; left; reflexivity | ].
      destruct (IH H) as [-> | H']; [ left; reflexivity | right; right; exact H' ].
Qed.

(** ** Validation of the permissions attribute *)

Ltac throw_cases H :=
  repeat
    match type of H with
    | may_throw (bind _ _) _ =>
        apply may_throw_bind in H; destruct H as [H | [? H]]
    | may_throw (perform _) _ => exfalso; exact (may_throw_perform _ _ H)
    | may_throw (lift _) _ => apply may_throw_lift in H
    | may_throw (if ?b then _ else _) _ => destruct b
    | may_throw (Ret _) _ => destruct H
    | may_throw (Throw _) _ => simpl in H
    end.

Lemma validation_error_not_collaborator (e : error) :
  validation_error e -> ~ collaborator_error e.
Proof. intros [-> | ->] []. Qed.

Lemma assert_verdict (fields : Datatypes.list (string * value)) :
  let attributes := VObj fields in
  let custom := strict_eq (property "type" attributes) (VStr "custom") in
  let present := truthy (property "permissions" attributes) in
  ApiToken.assertCustomTokenPermissionsValidity attributes =
  if negb custom && present then Err InvalidPermissionsError
  else if custom && negb present then Err MissingPermissionsError
  else Ok tt.
Proof.
  intros attributes custom present.
  unfold ApiToken.assertCustomTokenPermissionsValidity, attributes.
  rewrite !get_prop_object. reflexivity.
Qed.

(** Past validation, [create] throws nothing of its own but TypeErrors. *)
Lemma create_throws (attributes : value) (e : error) :
  may_throw (ApiToken.create attributes) e ->
  ApiToken.assertCustomTokenPermissionsValidity attributes = Err e \/
  collaborator_error e.
Proof.
  unfold ApiToken.create, ApiToken.hash. intros H.
  throw_cases H.
  - left. exact H.
  - right. exact (get_prop_error _ _ _ H).
  - right. exact (get_prop_error _ _ _ H).
  - right. eapply array_map_error; [ | exact H ].
    intros item e' Hx. simpl in Hx.
    destruct (get_prop _ "id") eqn:Hid; simpl in Hx; [ discriminate | ].
    injection Hx as <-. exact (get_prop_error _ _ _ Hid).
Qed.

Lemma find_one_unprojected hmac (s : store) (filter old : value) :
  List.find (matches filter) (st_tokens s) = Some old ->
  strapi hmac (Query "admin::api-token" "findOne" (VObj [("where", filter)])) s
  = (Ok (VObj (own_entries old)), s).
Proof.
  intros Hfind. cbn. unfold token_query. cbn.
  change (property "where" (VObj [("where", filter)])) with filter.
  rewrite Hfind. reflexivity.
Qed.

Lemma find_one_missing hmac (s : store) (params : value) :
  List.find (matches (property "where" params)) (st_tokens s) = None ->
  strapi hmac (Query "admin::api-token" "findOne" params) s = (Ok VNull, s).
Proof.
  intros Hfind. cbn. unfold token_query. cbn. rewrite Hfind. reflexivity.
Qed.

Lemma create_validation hmac (s : store) (attributes : value) (e : error) :
  st_entropy s <> [] ->
  validation_error e ->
  outcome (strapi hmac) (ApiToken.create attributes) s = Err e <->
  ApiToken.assertCustomTokenPermissionsValidity attributes = Err e.
Proof.
  intros Hentropy He. split.
  - intros H. apply outcome_error_origin in H.
    destruct H as [H | (c & s0 & H)].
    + apply create_throws in H. destruct H as [H | H]; [ exact H | ].
      destruct (validation_error_not_collaborator e He H).
    + apply strapi_errors in H.
      destruct (validation_error_not_collaborator e He H).
  - intros H. unfold ApiToken.create.
    rewrite outcome_bind, outcome_perform, final_perform.
    cbn [strapi]. destruct (st_entropy s) as [| key rest]; [ contradiction | ].
    cbn [fst snd].
    rewrite outcome_bind, outcome_lift, H. reflexivity.
Qed.

Lemma update_validation hmac (s : store) (id old : value)
      (fields : Datatypes.list (string * value)) (e : error) :
  List.find (matches (VObj [("id", id)])) (st_tokens s) = Some old ->
  validation_error e ->
  outcome (strapi hmac) (ApiToken.update id (VObj fields)) s = Err e <->
  ApiToken.assertCustomTokenPermissionsValidity
    (VObj (obj_set "type"
             (js_or (property "type" (VObj fields))
                    (property "type" (VObj (own_entries old))))
             fields)) = Err e.
Proof.
  intros Hfind He. unfold ApiToken.update.
  rewrite outcome_bind, outcome_perform, final_perform.
  rewrite (find_one_unprojected hmac s _ old Hfind).
  cbn [fst snd truthy negb].
  rewrite outcome_bind, outcome_lift, final_lift, get_prop_object.
  rewrite outcome_bind, outcome_lift, final_lift.
  assert (Hold :
    (if truthy (property "type" (VObj fields)) then Ok VUndefined
     else get_prop (VObj (own_entries old)) "type") =
    Ok (if truthy (property "type" (VObj fields)) then VUndefined
        else property "type" (VObj (own_entries old)))).
  { destruct (truthy (property "type" (VObj fields)));
      [ reflexivity | apply get_prop_object ]. }
  rewrite Hold. clear Hold.
  assert (Hor :
    js_or (property "type" (VObj fields))
          (if truthy (property "type" (VObj fields)) then VUndefined
           else property "type" (VObj (own_entries old))) =
    js_or (property "type" (VObj fields))
          (property "type" (VObj (own_entries old)))).
  { unfold js_or. destruct (truthy (property "type" (VObj fields))); reflexivity. }
  rewrite Hor. clear Hor.
  rewrite outcome_bind, outcome_lift, final_lift.
  cbn [own_entries].
  destruct (ApiToken.assertCustomTokenPermissionsValidity _) as [[] | e'].
  - split; [ | discriminate ].
    intros H. apply outcome_error_origin in H.
    destruct H as [H | (c & s0 & H)].
    + exfalso. apply (validation_error_not_collaborator e He).
      throw_cases H.
      * exact (get_prop_error _ _ _ H).
      * exact (get_prop_error _ _ _ H).
      * exact (get_prop_error _ _ _ H).
      * eapply array_map_error; [ | exact H ].
        intros item e' Hx. simpl in Hx.
        destruct (get_prop item "action") eqn:Ha; simpl in Hx; [ discriminate | ].
        injection Hx as <-. exact (get_prop_error _ _ _ Ha).
    + apply strapi_errors in H.
      destruct (validation_error_not_collaborator e He H).
  - split; intros [= ->]; reflexivity.
Qed.

Lemma property_obj_set_same (k : string) (v : value) fields :
  property k (VObj (obj_set k v fields)) = v.
Proof.
  unfold property. simpl. rewrite lookup_obj_set_same. reflexivity.
Qed.

Lemma property_obj_set_other (k k' : string) (v : value) fields :
  String.eqb k' k = false ->
  property k' (VObj (obj_set k v fields)) = property k' (VObj fields).
Proof.
  intros Hk. unfold property. simpl.
  rewrite (lookup_obj_set_other k k' v fields Hk). reflexivity.
Qed.

Lemma assert_invalid_iff (fields : Datatypes.list (string * value)) :
  ApiToken.assertCustomTokenPermissionsValidity (VObj fields)
  = Err InvalidPermissionsError <->
  is_custom (property "type" (VObj fields)) = false /\
  permissions_present (VObj fields) = true.
Proof.
  rewrite assert_verdict. unfold is_custom, permissions_present.
  destruct (strict_eq _ _), (truthy _); simpl; split;
    try discriminate; try (intros [? ?]; discriminate); auto.
Qed.

Lemma assert_missing_iff (fields : Datatypes.list (string * value)) :
  ApiToken.assertCustomTokenPermissionsValidity (VObj fields)
  = Err MissingPermissionsError <->
  is_custom (property "type" (VObj fields)) = true /\
  permissions_present (VObj fields) = false.
Proof.
  rewrite assert_verdict. unfold is_custom, permissions_present.
  destruct (strict_eq _ _), (truthy _); simpl; split;
    try discriminate; try (intros [? ?]; discriminate); auto.
Qed.

(** C1 (as amended).  [create] and [update] are rejected by the
    validation exactly according to the presence of the permissions
    attribute, not to its emptiness: with InvalidPermissionsError iff the
    type is not custom and [attributes.permissions] is truthy (any array,
    the empty one too), with MissingPermissionsError iff the type is
    custom and [attributes.permissions] is falsy.  [update] judges the
    effective type [attributes.type || oldToken.type]. *)
Theorem validation_by_presence
        hmac (s : store) (id old : value)
        (fields : Datatypes.list (string * value)) :
  st_entropy s <> [] ->
  List.find (matches (VObj [("id", id)])) (st_tokens s) = Some old ->
  let attributes := VObj fields in
  let effective_type :=
    js_or (property "type" attributes)
          (property "type" (VObj (own_entries old))) in
  (outcome (strapi hmac) (ApiToken.create attributes) s
   = Err InvalidPermissionsError <->
   is_custom (property "type" attributes) = false /\
   permissions_present attributes = true) /\
  (outcome (strapi hmac) (ApiToken.create attributes) s
   = Err MissingPermissionsError <->
   is_custom (property "type" attributes) = true /\
   permissions_present attributes = false) /\
  (outcome (strapi hmac) (ApiToken.update id attributes) s
   = Err InvalidPermissionsError <->
   is_custom effective_type = false /\
   permissions_present attributes = true) /\
  (outcome (strapi hmac) (ApiToken.update id attributes) s
   = Err MissingPermissionsError <->
   is_custom effective_type = true /\
   permissions_present attributes = false).
Proof.
  intros Hentropy Hfind attributes effective_type.
  subst attributes.
  assert (Heff : forall b1 b2,
    is_custom (property "type" (VObj (obj_set "type" effective_type fields)))
    = b1 /\
    permissions_present (VObj (obj_set "type" effective_type fields)) = b2 <->
    is_custom effective_type = b1 /\ permissions_present (VObj fields) = b2).
  { intros b1 b2. unfold permissions_present.
    rewrite property_obj_set_same.
    rewrite (property_obj_set_other "type" "permissions") by reflexivity.
    reflexivity. }
  split; [ | split; [ | split ] ].
  - rewrite <- assert_invalid_iff.
    apply create_validation; [ exact Hentropy | left; reflexivity ].
  - rewrite <- assert_missing_iff.
    apply create_validation; [ exact Hentropy | right; reflexivity ].
  - rewrite <- (Heff false true), <- assert_invalid_iff.
    apply (update_validation hmac s id old fields _ Hfind). left; reflexivity.
  - rewrite <- (Heff true false), <- assert_missing_iff.
    apply (update_validation hmac s id old fields _ Hfind). right; reflexivity.
Qed.

Lemma validation_by_presence_witness :
  outcome sample_strapi
          (ApiToken.create
             (VObj [("type", VStr "read-only"); ("name", VStr "n");
                    ("permissions", VArr [])]))
          sample_store
  = Err InvalidPermissionsError.
Proof.
  apply (proj1 (validation_by_presence
                  symbolic_hmac sample_store (VNum 1)
                  (token_row 1 "t" "custom" "d1") _
                  ltac:(discriminate) eq_refl)).
  split; reflexivity.
Defined.

(** C1, as stated, fails on an empty but present list: the non-custom
    token is rejected and the custom token is accepted. *)
Lemma empty_permissions_counterexample :
  ApiToken.assertCustomTokenPermissionsValidity
    (VObj [("type", VStr "read-only"); ("permissions", VArr [])])
  = Err InvalidPermissionsError /\
  ApiToken.assertCustomTokenPermissionsValidity
    (VObj [("type", VStr "custom"); ("permissions", VArr [])])
  = Ok tt /\
  outcome sample_strapi
          (ApiToken.create
             (VObj [("type", VStr "read-only"); ("name", VStr "n");
                    ("permissions", VArr [])]))
          sample_store
  = Err InvalidPermissionsError /\
  outcome sample_strapi
          (ApiToken.create
             (VObj [("type", VStr "custom"); ("name", VStr "n");
                    ("permissions", VArr [])]))
          sample_store
  = Ok (VObj [("id", VNum 100); ("name", VStr "n"); ("type", VStr "custom");
              ("createdAt", VNum 7); ("permissions", VArr []);
              ("accessKey", VStr "k1")]).
Proof. repeat split; vm_compute; reflexivity. Qed.

(** ** Reconciliation of the permissions in [update] *)

(** C2.  Scenario D on the code: token 1 holds [a] and [b] and is
    updated with the action strings [b] and [c].  Every string has the
    key [undefined], so [a] and [b] are both deleted, two permissions
    with an undefined action are created, and the token ends with those
    instead of [b] and [c]. *)
Theorem update_scenario_D_on_action_strings :
  let attributes := VObj [("permissions", strings ["b"; "c"])] in
  let r := run sample_strapi (ApiToken.update (VNum 1) attributes) sample_store in
  permission_calls (snd r)
  = [delete_many [VStr "a"; VStr "b"];
     create_many [new_permission VUndefined (VNum 1);
                  new_permission VUndefined (VNum 1)]] /\
  map_prop "action" (permissions_of (snd (fst r)) (token_ref 1))
  = [VUndefined; VUndefined] /\
  property "permissions" (match fst (fst r) with Ok v => v | Err _ => VNull end)
  = VArr (permissions_of (snd (fst r)) (token_ref 1)).
Proof. vm_compute. repeat split. Qed.

(** C3.  Token 1 is custom and holds [a] and [b]; updating its type to
    read-only succeeds, issues no call on the permission entity, and
    leaves the token read-only with both permissions. *)
Theorem update_to_non_custom_keeps_permissions :
  let attributes := VObj [("type", VStr "read-only")] in
  let r := run sample_strapi (ApiToken.update (VNum 1) attributes) sample_store in
  fst (fst r)
  = Ok (VObj [("id", VNum 1); ("name", VStr "t"); ("type", VStr "read-only");
              ("createdAt", VNum 0);
              ("permissions",
               VArr [permission_row 10 "a" 1; permission_row 11 "b" 1])]) /\
  permission_calls (snd r) = [] /\
  List.find (matches (token_ref 1)) (st_tokens (snd (fst r)))
  = Some (token_row 1 "t" "read-only" "d1") /\
  permissions_of (snd (fst r)) (token_ref 1)
  = [permission_row 10 "a" 1; permission_row 11 "b" 1].
Proof. vm_compute. repeat split. Qed.

(** C4.  Token 1 holds [a] and [b] and is updated with exactly the
    action strings [a] and [b]: both differences are full instead of
    empty, both permissions are deleted and two permissions with an
    undefined action are created. *)
Theorem update_with_current_actions_is_not_idle :
  let stored := VArr [permission_row 10 "a" 1; permission_row 11 "b" 1] in
  let desired := strings ["a"; "b"] in
  let attributes := VObj [("permissions", desired)] in
  let r := run sample_strapi (ApiToken.update (VNum 1) attributes) sample_store in
  differenceBy "action" stored desired
  = [permission_row 10 "a" 1; permission_row 11 "b" 1] /\
  differenceBy "action" desired stored = [VStr "a"; VStr "b"] /\
  permission_calls (snd r)
  = [delete_many [VStr "a"; VStr "b"];
     create_many [new_permission VUndefined (VNum 1);
                  new_permission VUndefined (VNum 1)]] /\
  map_prop "action" (permissions_of (snd (fst r)) (token_ref 1))
  = [VUndefined; VUndefined].
Proof. vm_compute. repeat split. Qed.

(** C5.  Token 2 holds [a]; updating token 1 deletes it, since the
    filter of [deleteMany] names actions only.  This happens for action
    strings and for objects carrying the action alike; with the strings
    the shared action [b] of token 1 is deleted as well. *)
Theorem update_deletes_permissions_of_other_tokens :
  let by_strings :=
    run sample_strapi
        (ApiToken.update (VNum 1) (VObj [("permissions", strings ["b"; "c"])]))
        sample_store in
  let by_objects :=
    run sample_strapi
        (ApiToken.update (VNum 1)
           (VObj [("permissions", action_objects ["b"; "c"])]))
        sample_store in
  permissions_of sample_store (token_ref 2) = [permission_row 12 "a" 2] /\
  permissions_of (snd (fst by_strings)) (token_ref 2) = [] /\
  permissions_of (snd (fst by_objects)) (token_ref 2) = [] /\
  permission_calls (snd by_objects)
  = [delete_many [VStr "a"];
     create_many [new_permission (VStr "c") (VNum 1)]] /\
  map_prop "action" (permissions_of (snd (fst by_objects)) (token_ref 1))
  = [VStr "b"; VStr "c"] /\
  List.existsb (strict_eq (VStr "b"))
    (map_prop "action" (permissions_of (snd (fst by_strings)) (token_ref 1)))
  = false.
Proof. vm_compute. repeat split. Qed.

(** ** What the responses carry *)

Section RunInversion.
Context {S : Type} (h : call -> S -> res value * S).

Lemma outcome_bind_ok {A B} (p : prog A) (f : A -> prog B) (s : S) (b : B) :
  outcome h (bind p f) s = Ok b ->
  exists a, outcome h p s = Ok a /\ outcome h (f a) (final h p s) = Ok b.
Proof.
  rewrite outcome_bind. destruct (outcome h p s) as [a | e]; [ | discriminate ].
  intros H. exists a. split; [ reflexivity | exact H ].
Qed.

Lemma outcome_ret {A} (a b : A) (s : S) : outcome h (Ret a) s = Ok b -> a = b.
Proof. unfold outcome. simpl. intros [= ->]. reflexivity. Qed.

Lemma outcome_throw {A} (e : error) (s : S) (b : A) :
  outcome h (Throw e) s = Ok b -> False.
Proof. unfold outcome. simpl. discriminate. Qed.
End RunInversion.

(** Follows a successful run through the binds of a program. *)
Ltac follow_run H :=
  repeat
    match type of H with
    | outcome _ (bind _ _) _ = Ok _ =>
        let a := fresh "a" in
        let Ha := fresh "Ha" in
        apply outcome_bind_ok in H; destruct H as (a & Ha & H)
    | outcome _ (if ?b then _ else _) _ = Ok _ => destruct b eqn:?
    | outcome _ (Throw _) _ = Ok _ => destruct (outcome_throw _ _ _ _ H)
    | outcome _ (Ret _) _ = Ok _ => apply outcome_ret in H
    end.

Lemma only_public_null : only_public VNull.
Proof. intros k []. Qed.

Lemma selected_public (params row : value) (k : string) :
  property "select" params = ApiToken.SELECT_FIELDS ->
  In k (List.map fst (selected params row)) ->
  In k ["id"; "name"; "description"; "type"; "createdAt"].
Proof.
  intros Hsel. unfold selected. rewrite Hsel. unfold ApiToken.SELECT_FIELDS.
  cbn [List.flat_map].
  repeat match goal with
         | |- context [lookup ?x ?l] => destruct (lookup x l)
         end; cbn; tauto.
Qed.

Lemma present_public (s : store) (params row : value) :
  property "select" params = ApiToken.SELECT_FIELDS ->
  only_public (present s params row).
Proof.
  intros Hsel k. unfold present.
  assert (Hfields : In k (List.map fst (selected params row)) -> In k public_fields).
  { intros Hk. apply (selected_public params row k Hsel) in Hk.
    unfold public_fields. cbn in *. tauto. }
  destruct (property "populate" params); try exact Hfields.
  destruct (List.existsb _ _); [ | exact Hfields ].
  cbn [own_entries]. intros Hk. apply keys_obj_set in Hk.
  destruct Hk as [-> | Hk]; [ | exact (Hfields Hk) ].
  unfold public_fields. cbn. tauto.
Qed.

(** Every record the token entity answers under [SELECT_FIELDS] is
    public: one record or [null], or a list of records for [findMany]. *)
Lemma token_query_public (method : string) (params : value) (s : store) (v : value) :
  property "select" params = ApiToken.SELECT_FIELDS ->
  fst (token_query method params s) = Ok v ->
  only_public v \/
  (method = "findMany" /\ exists rows, v = VArr rows /\ Forall only_public rows).
Proof.
  intros Hsel. unfold token_query.
  destruct (String.eqb method "findOne").
  { destruct (List.find _ _); cbn; intros [= <-]; left;
      [ apply present_public; exact Hsel | apply only_public_null ]. }
  destruct (String.eqb method "findMany") eqn:Hmany.
  { cbn. intros [= <-]. right. split; [ apply String.eqb_eq; exact Hmany | ].
    eexists. split; [ reflexivity | ].
    apply Forall_forall. intros x Hx. apply in_map_iff in Hx.
    destruct Hx as (row & <- & _). apply present_public. exact Hsel. }
  destruct (String.eqb method "create").
  { cbn. intros [= <-]. left. apply present_public. exact Hsel. }
  destruct (String.eqb method "update").
  { destruct (List.find _ _); cbn; intros [= <-]; left;
      [ apply present_public; exact Hsel | apply only_public_null ]. }
  destruct (String.eqb method "delete").
  { destruct (List.find _ _); cbn; intros [= <-]; left;
      [ apply present_public; exact Hsel | apply only_public_null ]. }
  cbn. discriminate.
Qed.

Lemma token_query_one_public hmac (method : string) (params : value)
      (s : store) (v : value) :
  property "select" params = ApiToken.SELECT_FIELDS ->
  String.eqb method "findMany" = false ->
  outcome (strapi hmac) (perform (Query "admin::api-token" method params)) s
  = Ok v ->
  only_public v.
Proof.
  intros Hsel Hmethod. rewrite outcome_perform. cbn [strapi].
  change (String.eqb "admin::api-token" "admin::api-token") with true.
  cbn iota. intros H.
  destruct (token_query_public method params s v Hsel H) as [Hv | [-> _]];
    [ exact Hv | discriminate ].
Qed.

Lemma getBy_public hmac (whereParams : value) (s : store) (v : value) :
  outcome (strapi hmac) (ApiToken.getBy whereParams) s = Ok v -> only_public v.
Proof.
  unfold ApiToken.getBy. intros H. follow_run H.
  - subst v. apply only_public_null.
  - refine (token_query_one_public hmac _ _ _ _ _ _ H); reflexivity.
Qed.

Lemma update_public hmac (id attributes : value) (s : store) (v : value) :
  outcome (strapi hmac) (ApiToken.update id attributes) s = Ok v -> only_public v.
Proof.
  unfold ApiToken.update. intros H. follow_run H.
  all: subst v; intros k Hk; cbn [own_entries] in Hk;
    apply keys_obj_set in Hk; destruct Hk as [-> | Hk];
    [ unfold public_fields; cbn; tauto
    | match goal with
      | Hq : outcome _ (perform (Query _ "update" _)) _ = Ok ?token |- _ =>
          refine (token_query_one_public hmac _ _ _ _ _ _ Hq k Hk); reflexivity
      end ].
Qed.

Lemma create_returns_secret hmac (attributes : value) (s : store) (v : value) :
  outcome (strapi hmac) (ApiToken.create attributes) s = Ok v ->
  exists key rest,
    st_entropy s = key :: rest /\ property "accessKey" v = VStr key.
Proof.
  unfold ApiToken.create. intros H. follow_run H.
  all: match goal with
       | Hr : outcome _ (perform (RandomBytesHex _)) _ = Ok _ |- _ =>
           rewrite outcome_perform in Hr; cbn [strapi] in Hr;
           destruct (st_entropy s) as [| key rest]; [ discriminate Hr | ];
           cbn in Hr; injection Hr as <-
       end.
  all: exists key, rest; split; [ reflexivity | ]; subst v.
  - rewrite (property_obj_set_other "permissions" "accessKey") by reflexivity.
    apply property_obj_set_same.
  - apply property_obj_set_same.
Qed.

(** C6.  The responses of [update], [revoke], [getById], [getByName],
    [getBy] and [list] carry no field besides [id], [name],
    [description], [type], [createdAt] and [permissions], so neither the
    stored digest nor the secret (both live under [accessKey]); the
    response of [create] carries the generated secret under [accessKey]. *)
Theorem secret_only_in_create_response
        hmac (s : store) (id name whereParams attributes v : value) :
  ~ In "accessKey" public_fields /\
  (outcome (strapi hmac) (ApiToken.update id attributes) s = Ok v ->
   only_public v) /\
  (outcome (strapi hmac) (ApiToken.revoke id) s = Ok v -> only_public v) /\
  (outcome (strapi hmac) (ApiToken.getById id) s = Ok v -> only_public v) /\
  (outcome (strapi hmac) (ApiToken.getByName name) s = Ok v -> only_public v) /\
  (outcome (strapi hmac) (ApiToken.getBy whereParams) s = Ok v ->
   only_public v) /\
  (outcome (strapi hmac) ApiToken.list s = Ok v ->
   exists rows, v = VArr rows /\ Forall only_public rows) /\
  (outcome (strapi hmac) (ApiToken.create attributes) s = Ok v ->
   exists key rest,
     st_entropy s = key :: rest /\ property "accessKey" v = VStr key).
Proof.
  repeat match goal with |- _ /\ _ => split end.
  - unfold public_fields. cbn. intros H.
    repeat (destruct H as [H | H]; [ discriminate H | ]). exact H.
  - apply update_public.
  - unfold ApiToken.revoke. intros H.
    refine (token_query_one_public hmac _ _ _ _ _ _ H); reflexivity.
  - apply getBy_public.
  - apply getBy_public.
  - apply getBy_public.
  - unfold ApiToken.list. rewrite outcome_perform. cbn [strapi].
    change (String.eqb "admin::api-token" "admin::api-token") with true.
    cbn iota. intros H.
    unfold token_query in H. cbn in H. injection H as <-.
    eexists. split; [ reflexivity | ].
    apply Forall_forall. intros x Hx. apply in_map_iff in Hx.
    destruct Hx as (row & <- & _). apply present_public. reflexivity.
  - apply create_returns_secret.
Qed.

(** ** Hashing and the salt *)

Lemma hash_run hmac (accessKey : value) (s : store) :
  run (strapi hmac) (ApiToken.hash accessKey) s =
  (fst (strapi hmac (HmacHex "sha512" (configured_salt s) accessKey) s),
   s,
   [ConfigGet "admin.apiToken.salt";
    HmacHex "sha512" (configured_salt s) accessKey]).
Proof.
  unfold ApiToken.hash, perform, configured_salt. cbn.
  destruct (lookup "admin.apiToken.salt" (st_config s)) as [salt | ];
    [ destruct salt | ]; destruct accessKey; reflexivity.
Qed.

Lemma hash_never_throws (accessKey : value) (e : error) :
  ~ may_throw (ApiToken.hash accessKey) e.
Proof.
  unfold ApiToken.hash. intros H. throw_cases H.
Qed.

Lemma checkSalt_outcome hmac (s : store) :
  outcome (strapi hmac) ApiToken.checkSaltIsDefined s =
  if truthy (configured_salt s) then Ok VUndefined
  else if truthy (legacy_salt s) then Ok VUndefined
  else Err ConfigurationError.
Proof.
  unfold ApiToken.checkSaltIsDefined, outcome, perform, configured_salt, legacy_salt.
  cbn.
  destruct (truthy (match lookup "admin.apiToken.salt" (st_config s) with
                    | Some v => v | None => VUndefined end)); [ reflexivity | ].
  cbn.
  destruct (truthy (match lookup "API_TOKEN_SALT" (st_env s) with
                    | Some v => v | None => VUndefined end)); reflexivity.
Qed.

(** C7 (as amended).  [hash] checks nothing itself: it throws no error
    of its own and hands the configured salt, present or not, to the
    HMAC of [crypto]; with no salt configured its failure is the
    TypeError of that call.  The configuration error is the one of
    [checkSaltIsDefined], thrown exactly when neither the configured
    salt nor the environment variable [API_TOKEN_SALT] is set. *)
Theorem hash_leaves_the_salt_check_to_startup hmac (s : store) (accessKey : value) :
  (forall e, ~ may_throw (ApiToken.hash accessKey) e) /\
  trace (strapi hmac) (ApiToken.hash accessKey) s
  = [ConfigGet "admin.apiToken.salt";
     HmacHex "sha512" (configured_salt s) accessKey] /\
  (configured_salt s = VUndefined ->
   outcome (strapi hmac) (ApiToken.hash accessKey) s
   = Err (TypeError "The key argument must be of type string")) /\
  (outcome (strapi hmac) ApiToken.checkSaltIsDefined s = Err ConfigurationError
   <-> truthy (configured_salt s) = false /\ truthy (legacy_salt s) = false).
Proof.
  split; [ | split; [ | split ] ].
  - intros e. apply hash_never_throws.
  - unfold trace. rewrite hash_run. reflexivity.
  - intros Hsalt. unfold outcome. rewrite hash_run, Hsalt. reflexivity.
  - rewrite checkSalt_outcome.
    destruct (truthy (configured_salt s)), (truthy (legacy_salt s)); split;
      try discriminate; try (intros [? ?]; discriminate); auto.
Qed.

(** C7, as stated, fails: without a salt [hash] fails with the TypeError
    of the HMAC, not with the configuration error. *)
Lemma hash_without_salt_counterexample :
  outcome sample_strapi (ApiToken.hash (VStr "k1")) unsalted_store
  = Err (TypeError "The key argument must be of type string") /\
  outcome sample_strapi (ApiToken.hash (VStr "k1")) unsalted_store
  <> Err ConfigurationError.
Proof. split; [ reflexivity | discriminate ]. Qed.

(** C8.  With the same configured salt, [hash] gives the same result for
    the same secret whatever else the stores hold, and it leaves the
    store as it found it, so a second evaluation sees the same salt. *)
Theorem hash_deterministic hmac (s1 s2 : store) (secret : value) :
  configured_salt s1 = configured_salt s2 ->
  outcome (strapi hmac) (ApiToken.hash secret) s1
  = outcome (strapi hmac) (ApiToken.hash secret) s2 /\
  final (strapi hmac) (ApiToken.hash secret) s1 = s1.
Proof.
  intros Hsalt. unfold outcome, final. rewrite !hash_run, Hsalt.
  split; [ | reflexivity ].
  cbn. destruct (configured_salt s2), secret; reflexivity.
Qed.

Lemma hash_deterministic_witness :
  outcome sample_strapi (ApiToken.hash (VStr "k1")) sample_store
  = outcome sample_strapi (ApiToken.hash (VStr "k1"))
            (with_permissions (with_tokens sample_store []) []) /\
  final sample_strapi (ApiToken.hash (VStr "k1")) sample_store = sample_store.
Proof.
  apply (hash_deterministic symbolic_hmac sample_store
           (with_permissions (with_tokens sample_store []) []) (VStr "k1")).
  reflexivity.
Defined.

(** ** Lookups *)

Lemma strapi_find_one_total hmac (params : value) (s : store) (e : error) :
  outcome (strapi hmac) (perform (Query "admin::api-token" "findOne" params)) s
  = Err e -> False.
Proof.
  rewrite outcome_perform. cbn [strapi].
  change (String.eqb "admin::api-token" "admin::api-token") with true.
  cbn iota. unfold token_query.
  change (String.eqb "findOne" "findOne") with true. cbn iota.
  destruct (List.find _ _); cbn; discriminate.
Qed.

Lemma find_one_record_or_null hmac (params : value) (s : store) (v : value) :
  outcome (strapi hmac) (perform (Query "admin::api-token" "findOne" params)) s
  = Ok v ->
  v = VNull \/ exists record, v = VObj record.
Proof.
  rewrite outcome_perform. cbn [strapi].
  change (String.eqb "admin::api-token" "admin::api-token") with true.
  cbn iota. unfold token_query.
  change (String.eqb "findOne" "findOne") with true. cbn iota.
  destruct (List.find _ _) as [row | ]; cbn; intros [= <-];
    [ right | left; reflexivity ].
  unfold present.
  destruct (property "populate" params); try (eexists; reflexivity).
  destruct (List.existsb _ _); eexists; reflexivity.
Qed.

(** C9.  [getBy({})] answers [null] without asking the store, and
    [exists({})] answers [false]; for criteria with at least one field,
    [exists] answers a boolean, which is [true] exactly when [getBy]
    answers a record. *)
Theorem getBy_empty_criteria_is_null
        hmac (s : store) (field : string * value)
        (fields : Datatypes.list (string * value)) :
  run (strapi hmac) (ApiToken.getBy (VObj [])) s = (Ok VNull, s, []) /\
  run (strapi hmac) (ApiToken.exists_ (VObj [])) s = (Ok (VBool false), s, []) /\
  (exists b, outcome (strapi hmac) (ApiToken.exists_ (VObj (field :: fields))) s
             = Ok (VBool b)) /\
  (outcome (strapi hmac) (ApiToken.exists_ (VObj (field :: fields))) s
   = Ok (VBool true) <->
   exists record,
     outcome (strapi hmac) (ApiToken.getBy (VObj (field :: fields))) s
     = Ok (VObj record)).
Proof.
  split; [ reflexivity | split; [ reflexivity | ] ].
  unfold ApiToken.exists_. cbn [ApiToken.default_param].
  rewrite outcome_bind.
  assert (Hget : exists v,
    outcome (strapi hmac) (ApiToken.getBy (VObj (field :: fields))) s = Ok v /\
    (v = VNull \/ exists record, v = VObj record)).
  { unfold ApiToken.getBy. cbn [ApiToken.default_param object_keys lift bind
                                  own_entries List.map List.length Nat.eqb].
    destruct (outcome (strapi hmac) (perform (Query _ _ _)) s) as [v | e] eqn:Hq.
    - exists v. split; [ reflexivity | ].
      exact (find_one_record_or_null hmac _ s v Hq).
    - apply strapi_find_one_total in Hq. destruct Hq. }
  destruct Hget as (v & -> & Hv). unfold outcome at 1 2. cbn.
  destruct Hv as [-> | [record ->]]; cbn.
  - split; [ exists false; reflexivity | ].
    split; [ discriminate | intros [record [=]] ].
  - split; [ exists true; reflexivity | ].
    split; [ intros _; exists record | ]; reflexivity.
Qed.

(** ** Revocation *)

(** C10.  Against any collaborators, [revoke] issues the one [delete]
    call on the token entity, throws nothing itself, and its outcome and
    final state are those of that call. *)
Theorem revoke_is_one_delete
        {S : Type} (h : call -> S -> res value * S) (s : S) (id : value) :
  let c := Query "admin::api-token" "delete"
                 (VObj [("select", ApiToken.SELECT_FIELDS);
                        ("populate", ApiToken.POPULATE_FIELDS);
                        ("where", VObj [("id", id)])]) in
  run h (ApiToken.revoke id) s = (fst (h c s), snd (h c s), [c]) /\
  (forall e, ~ may_throw (ApiToken.revoke id) e).
Proof.
  intros c. split.
  - unfold ApiToken.revoke. apply run_perform.
  - intros e. unfold ApiToken.revoke. apply may_throw_perform.
Qed.

(** * Further properties of the service *)

(** ** Failing before anything is written *)

(** [update] of a token the store does not know: whatever falsy answer
    [findOne] gives, the update stops with NotFoundError after that one
    call, before validating or writing anything. *)
Theorem update_of_unknown_token
        {S : Type} (h : call -> S -> res value * S) (s s' : S)
        (id attributes old : value) :
  h (find_by_id id) s = (Ok old, s') ->
  truthy old = false ->
  run h (ApiToken.update id attributes) s
  = (Err NotFoundError, s', [find_by_id id]).
Proof.
  intros Hfind Hold. unfold ApiToken.update.
  rewrite run_bind, run_perform. fold (find_by_id id). rewrite Hfind.
  cbn [fst snd]. rewrite Hold. reflexivity.
Qed.

Lemma update_of_unknown_token_witness :
  run sample_strapi
      (ApiToken.update (VNum 99) (VObj [("name", VStr "x")])) sample_store
  = (Err NotFoundError, sample_store, [find_by_id (VNum 99)]).
Proof.
  apply (update_of_unknown_token sample_strapi sample_store sample_store
           (VNum 99) (VObj [("name", VStr "x")]) VNull);
    reflexivity.
Defined.

(** A [create] that the validation rejects has drawn the random bytes
    and done nothing else: no configuration read, no hash, no query. *)
Theorem rejected_create_writes_nothing
        {S : Type} (h : call -> S -> res value * S) (s s' : S)
        (attributes key : value) (e : error) :
  h (RandomBytesHex 128) s = (Ok key, s') ->
  ApiToken.assertCustomTokenPermissionsValidity attributes = Err e ->
  run h (ApiToken.create attributes) s = (Err e, s', [RandomBytesHex 128]).
Proof.
  intros Hkey Hassert. unfold ApiToken.create.
  rewrite run_bind, run_perform, Hkey. cbn [fst snd].
  rewrite run_bind, run_lift, Hassert. reflexivity.
Qed.

Lemma rejected_create_writes_nothing_witness :
  let attributes := VObj [("type", VStr "custom"); ("name", VStr "n")] in
  let r := run sample_strapi (ApiToken.create attributes) sample_store in
  fst (fst r) = Err MissingPermissionsError /\
  st_tokens (snd (fst r)) = st_tokens sample_store /\
  st_permissions (snd (fst r)) = st_permissions sample_store /\
  st_entropy (snd (fst r)) = ["k2"].
Proof.
  cbv zeta.
  rewrite (rejected_create_writes_nothing
             sample_strapi sample_store (snd (sample_strapi (RandomBytesHex 128) sample_store))
             (VObj [("type", VStr "custom"); ("name", VStr "n")])
             (VStr "k1") MissingPermissionsError eq_refl eq_refl).
  repeat split.
Defined.

(** An [update] that the validation rejects has looked the token up and
    done nothing else.  The type judged is the one of the request, or the
    stored one when the request gives none. *)
Theorem rejected_update_writes_nothing
        {S : Type} (h : call -> S -> res value * S) (s s' : S)
        (id old : value) (fields : Datatypes.list (string * value)) (e : error) :
  h (find_by_id id) s = (Ok old, s') ->
  truthy old = true ->
  ApiToken.assertCustomTokenPermissionsValidity
    (VObj (obj_set "type"
             (js_or (property "type" (VObj fields)) (property "type" old))
             fields)) = Err e ->
  run h (ApiToken.update id (VObj fields)) s = (Err e, s', [find_by_id id]).
Proof.
  intros Hfind Hold Hassert. unfold ApiToken.update.
  rewrite run_bind, run_perform. fold (find_by_id id). rewrite Hfind.
  cbn [fst snd]. rewrite Hold. cbn [negb].
  rewrite run_bind, run_lift, get_prop_object.
  rewrite run_bind, run_lift.
  assert (Hor :
    (if truthy (property "type" (VObj fields)) then Ok VUndefined
     else get_prop old "type") =
    Ok (if truthy (property "type" (VObj fields)) then VUndefined
        else property "type" old)).
  { destruct (truthy (property "type" (VObj fields)));
      [ reflexivity | apply get_prop_truthy; exact Hold ]. }
  rewrite Hor. clear Hor.
  rewrite run_bind, run_lift. cbn [own_entries].
  assert (Hor :
    js_or (property "type" (VObj fields))
          (if truthy (property "type" (VObj fields)) then VUndefined
           else property "type" old) =
    js_or (property "type" (VObj fields)) (property "type" old)).
  { unfold js_or. destruct (truthy (property "type" (VObj fields))); reflexivity. }
  rewrite Hor, Hassert. reflexivity.
Qed.

(** Renaming the custom token 1 without sending its permissions again is
    rejected, and the store is as before. *)
Lemma rejected_update_writes_nothing_witness :
  run sample_strapi
      (ApiToken.update (VNum 1) (VObj [("name", VStr "renamed")])) sample_store
  = (Err MissingPermissionsError, sample_store, [find_by_id (VNum 1)]).
Proof.
  apply (rejected_update_writes_nothing
           sample_strapi sample_store sample_store (VNum 1)
           (token_row 1 "t" "custom" "d1") [("name", VStr "renamed")]
           MissingPermissionsError);
    reflexivity.
Defined.

(** ** What [create] writes *)

Section TraceFacts.
Context {S : Type} (h : call -> S -> res value * S).
Lemma trace_bind {A B} (p : prog A) (f : A -> prog B) (s : S) :
  trace h (bind p f) s =
  match outcome h p s with
  | Ok a => (trace h p s ++ trace h (f a) (final h p s))%list
  | Err _ => trace h p s
  end.
Proof.
  unfold trace, outcome, final. rewrite run_bind.
  destruct (run h p s) as [[[a | e] s'] t]; cbn; [ | reflexivity ].
  destruct (run h (f a) s') as [[r s''] t']. reflexivity.
Qed.

Lemma final_bind {A B} (p : prog A) (f : A -> prog B) (s : S) :
  final h (bind p f) s =
  match outcome h p s with
  | Ok a => final h (f a) (final h p s)
  | Err _ => final h p s
  end.
Proof.
  unfold outcome, final. rewrite run_bind.
  destruct (run h p s) as [[[a | e] s'] t]; cbn; [ | reflexivity ].
  destruct (run h (f a) s') as [[r s''] t']. reflexivity.
Qed.
Lemma trace_perform (c : call) (s : S) : trace h (perform c) s = [c].
Proof. unfold trace. rewrite run_perform. reflexivity. Qed.

Lemma trace_lift {A} (r : res A) (s : S) : trace h (lift r) s = [].
Proof. unfold trace. rewrite run_lift. reflexivity. Qed.
End TraceFacts.

Lemma map_res_ok {A B} (f : A -> res B) (g : A -> B) (l : list A) :
  (forall x, f x = Ok (g x)) -> map_res f l = Ok (List.map g l).
Proof.
  intros Hf. induction l as [| x rest IH]; cbn; [ reflexivity | ].
  rewrite Hf, IH. reflexivity.
Qed.

Lemma selected_lookup (params row : value) (k : string) :
  property "select" params = ApiToken.SELECT_FIELDS ->
  In k ["id"; "name"; "description"; "type"; "createdAt"] ->
  lookup k (selected params row) = lookup k (own_entries row).
Proof.
  intros Hsel Hk. unfold selected. rewrite Hsel. unfold ApiToken.SELECT_FIELDS.
  cbn [List.flat_map].
  cbn in Hk.
  repeat (destruct Hk as [<- | Hk]);
  try contradiction;
  repeat match goal with
         | |- context [match lookup ?x ?l with _ => _ end] => destruct (lookup x l) eqn:?
         end; cbn; congruence.
Qed.

Lemma present_lookup (s : store) (params row : value) (k : string) :
  property "select" params = ApiToken.SELECT_FIELDS ->
  property "populate" params = ApiToken.POPULATE_FIELDS ->
  In k ["id"; "name"; "description"; "type"; "createdAt"] ->
  lookup k (own_entries (present s params row)) = lookup k (own_entries row).
Proof.
  intros Hsel Hpop Hk. unfold present. rewrite Hpop. cbn.
  rewrite lookup_obj_set_other.
  - apply selected_lookup; assumption.
  - cbn in Hk. repeat (destruct Hk as [<- | Hk]); try contradiction; reflexivity.
Qed.

Lemma present_is_object (s : store) (params row : value) :
  present s params row = VObj (own_entries (present s params row)).
Proof.
  unfold present. destruct (property "populate" params); try reflexivity.
  destruct (List.existsb _ _); reflexivity.
Qed.

Lemma create_token_answer hmac (data : value) (s : store) :
  exists apiToken s',
    strapi hmac (create_token data) s = (Ok apiToken, s') /\
    get_prop apiToken "id" = Ok (VNum (st_next_id s)) /\
    st_next_id s' = st_next_id s + 1 /\
    st_permissions s' = st_permissions s /\ st_config s' = st_config s.
Proof.
  eexists. eexists. split; [ reflexivity | ].
  split; [ | repeat split ].
  rewrite present_is_object. unfold get_prop. cbn [own_entries].
  rewrite present_lookup; try reflexivity; [ | cbn; tauto ].
  cbn [own_entries].
  rewrite lookup_obj_set_other by reflexivity.
  rewrite lookup_obj_set_same. reflexivity.
Qed.

(** A [create] of a custom token, with entropy and a salt at hand,
    issues exactly these calls: the random bytes, the salt, the HMAC of
    the secret under the salt, the token written with the attributes
    minus [permissions] and with [accessKey] set to the digest (over
    whatever [accessKey] the caller gave), and one [createMany] binding
    each given action, in order, to the id of the new token. *)
Theorem create_custom_trace hmac (s : store) (fields : list (string * value))
        (key salt : string) (rest : list string) (actions : list value) :
  st_entropy s = key :: rest ->
  configured_salt s = VStr salt ->
  property "type" (VObj fields) = VStr "custom" ->
  property "permissions" (VObj fields) = VArr actions ->
  trace (strapi hmac) (ApiToken.create (VObj fields)) s
  = [RandomBytesHex 128;
     ConfigGet "admin.apiToken.salt";
     HmacHex "sha512" (VStr salt) (VStr key);
     create_token (VObj (obj_set "accessKey" (VStr (hmac salt key))
                                 (without_permissions fields)));
     create_many (List.map (fun action => new_permission action (VNum (st_next_id s)))
                           actions)].
Proof.
  intros Hentropy Hsalt Htype Hperms. unfold ApiToken.create.
  rewrite trace_bind, outcome_perform, final_perform, trace_perform.
  cbn [strapi]. rewrite Hentropy. cbn [fst snd].
  set (s1 := Build_store _ _ _ _ _ _ _ _).
  rewrite trace_bind, outcome_lift, final_lift, trace_lift.
  rewrite assert_verdict, Htype, Hperms.
  change (strict_eq (VStr "custom") (VStr "custom")) with true.
  cbn [negb andb truthy].
  rewrite trace_bind. unfold outcome at 1, final at 1, trace at 1.
  rewrite hash_run.
  change (configured_salt s1) with (configured_salt s). rewrite Hsalt.
  cbn [strapi fst snd].
  rewrite trace_bind, outcome_perform, final_perform, trace_perform.
  change (own_entries (omit "permissions" (VObj fields)))
    with (without_permissions fields).
  fold (create_token (VObj (obj_set "accessKey" (VStr (hmac salt key))
                                    (without_permissions fields)))).
  destruct (create_token_answer hmac
              (VObj (obj_set "accessKey" (VStr (hmac salt key))
                             (without_permissions fields))) s1)
    as (apiToken & s2 & Hcreate & Hid & Hnext & _).
  rewrite Hcreate. cbn [fst snd].
  rewrite trace_bind, outcome_lift, final_lift, trace_lift, get_prop_object, Htype.
  change (strict_eq (VStr "custom") (VStr "custom")) with true.
  cbn iota.
  rewrite trace_bind, outcome_lift, final_lift, trace_lift, get_prop_object, Hperms.
  rewrite trace_bind, outcome_lift, final_lift, trace_lift.
  unfold array_map.
  rewrite (map_res_ok _ (fun action => new_permission action (VNum (st_next_id s)))).
  2:{ intros action. rewrite Hid. reflexivity. }
  cbn [res_bind].
  rewrite trace_bind, outcome_perform, final_perform, trace_perform.
  destruct (fst (strapi hmac _ s2)); reflexivity.
Qed.

Lemma create_custom_trace_witness :
  trace sample_strapi
        (ApiToken.create
           (VObj [("type", VStr "custom"); ("name", VStr "n");
                  ("accessKey", VStr "chosen by the caller");
                  ("permissions", strings ["a"; "b"])]))
        sample_store
  = [RandomBytesHex 128;
     ConfigGet "admin.apiToken.salt";
     HmacHex "sha512" (VStr "salt") (VStr "k1");
     create_token (VObj [("type", VStr "custom"); ("name", VStr "n");
                         ("accessKey", VStr (symbolic_hmac "salt" "k1"))]);
     create_many [new_permission (VStr "a") (VNum 100);
                  new_permission (VStr "b") (VNum 100)]].
Proof.
  apply (create_custom_trace symbolic_hmac sample_store
           [("type", VStr "custom"); ("name", VStr "n");
            ("accessKey", VStr "chosen by the caller");
            ("permissions", strings ["a"; "b"])]
           "k1" "salt" ["k2"] [VStr "a"; VStr "b"]);
    reflexivity.
Defined.

(** A [create] of a token that is not custom and carries no permissions
    issues the same calls up to the token written, and none on the
    permission entity. *)
Theorem create_plain_trace hmac (s : store) (fields : list (string * value))
        (key salt : string) (rest : list string) :
  st_entropy s = key :: rest ->
  configured_salt s = VStr salt ->
  is_custom (property "type" (VObj fields)) = false ->
  permissions_present (VObj fields) = false ->
  trace (strapi hmac) (ApiToken.create (VObj fields)) s
  = [RandomBytesHex 128;
     ConfigGet "admin.apiToken.salt";
     HmacHex "sha512" (VStr salt) (VStr key);
     create_token (VObj (obj_set "accessKey" (VStr (hmac salt key))
                                 (without_permissions fields)))].
Proof.
  intros Hentropy Hsalt Htype Hperms. unfold ApiToken.create.
  unfold is_custom in Htype. unfold permissions_present in Hperms.
  rewrite trace_bind, outcome_perform, final_perform, trace_perform.
  cbn [strapi]. rewrite Hentropy. cbn [fst snd].
  set (s1 := Build_store _ _ _ _ _ _ _ _).
  rewrite trace_bind, outcome_lift, final_lift, trace_lift.
  rewrite assert_verdict, Htype, Hperms.
  cbn [negb andb].
  rewrite trace_bind. unfold outcome at 1, final at 1, trace at 1.
  rewrite hash_run.
  change (configured_salt s1) with (configured_salt s). rewrite Hsalt.
  cbn [strapi fst snd].
  rewrite trace_bind, outcome_perform, final_perform, trace_perform.
  change (own_entries (omit "permissions" (VObj fields)))
    with (without_permissions fields).
  fold (create_token (VObj (obj_set "accessKey" (VStr (hmac salt key))
                                    (without_permissions fields)))).
  destruct (create_token_answer hmac
              (VObj (obj_set "accessKey" (VStr (hmac salt key))
                             (without_permissions fields))) s1)
    as (apiToken & s2 & Hcreate & _).
  rewrite Hcreate. cbn [fst snd].
  rewrite trace_bind, outcome_lift, final_lift, trace_lift, get_prop_object, Htype.
  reflexivity.
Qed.

Lemma create_plain_trace_witness :
  trace sample_strapi
        (ApiToken.create (VObj [("type", VStr "read-only"); ("name", VStr "n")]))
        sample_store
  = [RandomBytesHex 128;
     ConfigGet "admin.apiToken.salt";
     HmacHex "sha512" (VStr "salt") (VStr "k1");
     create_token (VObj [("type", VStr "read-only"); ("name", VStr "n");
                         ("accessKey", VStr (symbolic_hmac "salt" "k1"))])].
Proof.
  apply (create_plain_trace symbolic_hmac sample_store
           [("type", VStr "read-only"); ("name", VStr "n")] "k1" "salt" ["k2"]);
    reflexivity.
Defined.

(** ** The reconciliation as [update] performs it *)

Lemma get_prop_not_nullish (v : value) (k : string) :
  nullish v = false -> get_prop v k = Ok (property k v).
Proof.
  unfold property. destruct v; cbn; try discriminate; intros _;
    repeat match goal with
           | |- context [match ?x with _ => _ end] => destruct x
           end; reflexivity.
Qed.

Section UpdateRuns.
Context {S : Type} (h : call -> S -> res value * S).

Lemma update_run_prefix (s s1 s2 : S) (id old token : value)
      (fields : list (string * value)) :
  h (find_by_id id) s = (Ok old, s1) ->
  truthy old = true ->
  ApiToken.assertCustomTokenPermissionsValidity
    (VObj (obj_set "type"
             (js_or (property "type" (VObj fields)) (property "type" old))
             fields)) = Ok tt ->
  h (update_token id (VObj (without_permissions fields))) s1 = (Ok token, s2) ->
  run h (ApiToken.update id (VObj fields)) s =
  prepend [find_by_id id; update_token id (VObj (without_permissions fields))]
          (run h (after_write id (VObj fields) token) s2).
Proof.
  intros Hfind Hold Hvalid Hupdate.
  unfold ApiToken.update.
  rewrite run_bind, run_perform. fold (find_by_id id). rewrite Hfind.
  cbn [fst snd]. rewrite Hold. cbn [negb].
  rewrite run_bind, run_lift, get_prop_object.
  rewrite run_bind, run_lift.
  assert (Hor :
    (if truthy (property "type" (VObj fields)) then Ok VUndefined
     else get_prop old "type") =
    Ok (if truthy (property "type" (VObj fields)) then VUndefined
        else property "type" old)).
  { destruct (truthy (property "type" (VObj fields)));
      [ reflexivity | apply get_prop_truthy; exact Hold ]. }
  rewrite Hor. clear Hor.
  rewrite run_bind, run_lift. cbn [own_entries].
  assert (Hor :
    js_or (property "type" (VObj fields))
          (if truthy (property "type" (VObj fields)) then VUndefined
           else property "type" old) =
    js_or (property "type" (VObj fields)) (property "type" old)).
  { unfold js_or. destruct (truthy (property "type" (VObj fields))); reflexivity. }
  rewrite Hor, Hvalid. clear Hor.
  rewrite run_bind, run_perform.
  change (omit "permissions" (VObj fields)) with (VObj (without_permissions fields)).
  fold (update_token id (VObj (without_permissions fields))).
  rewrite Hupdate. cbn [fst snd].
  unfold after_write, prepend.
  destruct (run h _ s2) as [[r s'] t]. reflexivity.
Qed.

(** [update] of a token that ends up not custom: no call on the
    permission entity; the permissions of the response are those the
    store still holds. *)
Theorem update_non_custom_run (s s1 s2 : S) (id old token : value)
      (fields : list (string * value)) :
  h (find_by_id id) s = (Ok old, s1) ->
  truthy old = true ->
  ApiToken.assertCustomTokenPermissionsValidity
    (VObj (obj_set "type"
             (js_or (property "type" (VObj fields)) (property "type" old))
             fields)) = Ok tt ->
  h (update_token id (VObj (without_permissions fields))) s1 = (Ok token, s2) ->
  nullish token = false ->
  is_custom (property "type" token) = false ->
  run h (ApiToken.update id (VObj fields)) s =
  (res_bind (fst (h (load_permissions token) s2))
            (fun permissions =>
               Ok (VObj (obj_set "permissions" permissions (own_entries token)))),
   snd (h (load_permissions token) s2),
   [find_by_id id;
    update_token id (VObj (without_permissions fields));
    load_permissions token]).
Proof.
  intros Hfind Hold Hvalid Hupdate Htoken Htype.
  rewrite (update_run_prefix s s1 s2 id old token fields Hfind Hold Hvalid Hupdate).
  unfold after_write.
  rewrite run_bind, run_lift, (get_prop_not_nullish token "type" Htoken).
  unfold is_custom in Htype. rewrite Htype.
  rewrite run_bind. cbn [run]. rewrite run_bind, run_perform.
  fold (load_permissions token).
  destruct (h (load_permissions token) s2) as [[permissions | e] s3]; reflexivity.
Qed.

End UpdateRuns.

Lemma update_non_custom_run_witness :
  snd (run sample_strapi
           (ApiToken.update (VNum 1) (VObj [("type", VStr "read-only")]))
           sample_store)
  = [find_by_id (VNum 1);
     update_token (VNum 1) (VObj [("type", VStr "read-only")]);
     load_permissions
       (VObj [("id", VNum 1); ("name", VStr "t"); ("type", VStr "read-only");
              ("createdAt", VNum 0);
              ("permissions",
               VArr [permission_row 10 "a" 1; permission_row 11 "b" 1])])].
Proof.
  rewrite (update_non_custom_run
             sample_strapi sample_store sample_store
             (snd (sample_strapi
                     (update_token (VNum 1) (VObj [("type", VStr "read-only")]))
                     sample_store))
             (VNum 1) (token_row 1 "t" "custom" "d1")
             (answer (sample_strapi
                        (update_token (VNum 1) (VObj [("type", VStr "read-only")]))
                        sample_store))
             [("type", VStr "read-only")]
             eq_refl eq_refl eq_refl eq_refl eq_refl eq_refl).
  reflexivity.
Defined.

Lemma map_res_ok_in {A B} (f : A -> res B) (g : A -> B) (l : list A) :
  (forall x, In x l -> f x = Ok (g x)) -> map_res f l = Ok (List.map g l).
Proof.
  induction l as [| x rest IH]; intros Hf; cbn; [ reflexivity | ].
  rewrite (Hf x (or_introl eq_refl)), IH; [ reflexivity | ].
  intros y Hy. apply Hf. right. exact Hy.
Qed.

Lemma delete_many_answer hmac (actions : list value) (s : store) :
  strapi hmac (delete_many actions) s =
  (Ok VUndefined,
   with_permissions s
     (List.filter
        (fun p => negb (List.existsb (strict_eq (property "action" p)) actions))
        (st_permissions s))).
Proof.
  cbn. unfold permission_query. cbn. unfold matches. cbn. 
  f_equal. f_equal. apply filter_ext. intros p. rewrite andb_true_r. reflexivity.
Qed.

Lemma create_many_answer hmac (rows : list value) (s : store) :
  strapi hmac (create_many rows) s =
  (Ok (VArr (number_rows (st_next_id s) rows)),
   with_next_id
     (with_permissions s (st_permissions s ++ number_rows (st_next_id s) rows))
     (st_next_id s + Z.of_nat (List.length rows))).
Proof. reflexivity. Qed.

Lemma load_permissions_answer hmac (token : value) (s : store) :
  strapi hmac (load_permissions token) s = (Ok (VArr (permissions_of s token)), s).
Proof. reflexivity. Qed.

(** [update] of a token that ends up custom, run on the store: the
    actions deleted are those of the stored permissions whose [action]
    is the [action] property of no desired element, the permissions
    created are the desired elements whose [action] property is that of
    no stored permission, each bound to [id]; the response carries the
    permissions the store holds after both calls.  The deletion filters
    on the action alone. *)
Theorem update_custom_run hmac (s s1 s2 : store) (id old token : value)
      (fields : list (string * value)) :
  strapi hmac (find_by_id id) s = (Ok old, s1) ->
  truthy old = true ->
  ApiToken.assertCustomTokenPermissionsValidity
    (VObj (obj_set "type"
             (js_or (property "type" (VObj fields)) (property "type" old))
             fields)) = Ok tt ->
  strapi hmac (update_token id (VObj (without_permissions fields))) s1
  = (Ok token, s2) ->
  property "type" token = VStr "custom" ->
  let stored := property "permissions" token in
  let desired := property "permissions" (VObj fields) in
  let deleted := map_prop "action" (differenceBy "action" stored desired) in
  let created :=
    List.map (fun p => new_permission (property "action" p) id)
             (differenceBy "action" desired stored) in
  List.forallb (fun p => negb (nullish p)) (differenceBy "action" desired stored)
  = true ->
  run (strapi hmac) (ApiToken.update id (VObj fields)) s =
  (Ok (VObj (obj_set "permissions"
               (VArr (permissions_of (reconciled s2 deleted created) token))
               (own_entries token))),
   reconciled s2 deleted created,
   [find_by_id id;
    update_token id (VObj (without_permissions fields));
    delete_many deleted;
    create_many created;
    load_permissions token]).
Proof.
  intros Hfind Hold Hvalid Hupdate Htype stored desired deleted created Hcreate.
  assert (Htoken : nullish token = false).
  { destruct token; try reflexivity; discriminate Htype. }
  rewrite (update_run_prefix (strapi hmac) s s1 s2 id old token fields
             Hfind Hold Hvalid Hupdate).
  unfold after_write.
  rewrite run_bind, run_lift, (get_prop_not_nullish token "type" Htoken), Htype.
  change (strict_eq (VStr "custom") (VStr "custom")) with true. cbn iota.
  rewrite run_bind, run_bind, run_lift.
  rewrite (get_prop_not_nullish token "permissions" Htoken).
  rewrite run_bind, run_lift, get_prop_object.
  fold stored desired.
  rewrite run_bind, run_perform.
  fold deleted. fold (delete_many deleted).
  rewrite delete_many_answer. cbn [fst snd].
  rewrite run_bind, run_lift.
  unfold array_map.
  rewrite (map_res_ok_in _ (fun p => new_permission (property "action" p) id)).
  2:{ intros p Hp.
      rewrite (get_prop_not_nullish p "action"); [ reflexivity | ].
      apply negb_true_iff.
      exact (proj1 (forallb_forall _ _) Hcreate p Hp). }
  cbn [res_bind].
  fold created.
  rewrite run_perform.
  fold (create_many created).
  rewrite create_many_answer. cbn [fst snd].
  rewrite run_bind, run_perform.
  fold (load_permissions token).
  rewrite load_permissions_answer.
  reflexivity.
Qed.

Lemma update_custom_run_witness :
  let r := run sample_strapi
               (ApiToken.update (VNum 1)
                  (VObj [("permissions", action_objects ["b"; "c"])]))
               sample_store in
  permission_calls (snd r)
  = [delete_many [VStr "a"];
     create_many [new_permission (VStr "c") (VNum 1)]] /\
  property "permissions" (answer (fst r))
  = VArr [permission_row 11 "b" 1;
          VObj [("action", VStr "c"); ("token", VNum 1); ("id", VNum 100)]].
Proof.
  cbv zeta. unfold sample_strapi.
  rewrite (update_custom_run
             symbolic_hmac sample_store sample_store
             (snd (sample_strapi (update_token (VNum 1) (VObj [])) sample_store))
             (VNum 1) (token_row 1 "t" "custom" "d1")
             (answer (sample_strapi (update_token (VNum 1) (VObj [])) sample_store))
             [("permissions", action_objects ["b"; "c"])]
             eq_refl eq_refl eq_refl eq_refl eq_refl eq_refl).
  split; reflexivity.
Defined.

(** ** The two differences *)

Lemma differenceBy_In (k : string) (a b : list value) (x : value) :
  In x (differenceBy k (VArr a) (VArr b)) <->
  In x a /\
  forall y, In y b -> strict_eq (property k x) (property k y) = false.
Proof.
  unfold differenceBy. cbn [as_array]. rewrite filter_In, negb_true_iff.
  split; intros [Hx Hkeys]; (split; [ exact Hx | ]).
  - intros y Hy.
    destruct (strict_eq (property k x) (property k y)) eqn:E; [ | reflexivity ].
    rewrite <- Hkeys. symmetry. apply existsb_exists.
    exists (property k y). split; [ apply in_map; exact Hy | exact E ].
  - destruct (existsb _ _) eqn:E; [ | reflexivity ].
    apply existsb_exists in E. destruct E as (key & Hkey & E).
    apply in_map_iff in Hkey. destruct Hkey as (y & <- & Hy).
    rewrite (Hkeys y Hy) in E. discriminate.
Qed.

Lemma strict_eq_sym (a b : value) : strict_eq a b = strict_eq b a.
Proof.
  destruct a, b; cbn; try reflexivity.
  - destruct b, b0; reflexivity.
  - apply Z.eqb_sym.
  - apply String.eqb_sym.
Qed.

(** Whatever the two lists hold, no key is both deleted and created by
    one reconciliation: an element kept by one difference and an element
    kept by the other never have the same key. *)
Theorem reconciliation_never_churns (k : string) (stored desired x y : value) :
  In x (differenceBy k stored desired) ->
  In y (differenceBy k desired stored) ->
  strict_eq (property k x) (property k y) = false.
Proof.
  intros Hx Hy.
  destruct stored as [ | | | | | a | ]; try (destruct Hx; fail).
  destruct desired as [ | | | | | b | ];
    try (unfold differenceBy in Hy; cbn in Hy; destruct Hy; fail).
  apply differenceBy_In in Hx, Hy.
  destruct Hx as [Hx _]. destruct Hy as [_ Hy].
  rewrite strict_eq_sym. exact (Hy x Hx).
Qed.

Lemma reconciliation_never_churns_witness :
  strict_eq (property "action" (permission_row 10 "a" 1))
            (property "action" (VObj [("action", VStr "c")]))
  = false.
Proof.
  apply (reconciliation_never_churns
           "action"
           (VArr [permission_row 10 "a" 1; permission_row 11 "b" 1])
           (action_objects ["b"; "c"])).
  - left. reflexivity.
  - left. reflexivity.
Defined.

Lemma differenceBy_nil_iff (k : string) (a b : list value) :
  differenceBy k (VArr a) (VArr b) = [] <->
  forall x, In x a ->
            exists y, In y b /\ strict_eq (property k x) (property k y) = true.
Proof.
  split.
  - intros Hnil x Hx.
    destruct (existsb (strict_eq (property k x)) (List.map (property k) b)) eqn:E.
    + apply existsb_exists in E. destruct E as (key & Hkey & E).
      apply in_map_iff in Hkey. destruct Hkey as (y & <- & Hy).
      exists y. split; assumption.
    + assert (Hin : In x (differenceBy k (VArr a) (VArr b))).
      { unfold differenceBy. cbn [as_array]. apply filter_In.
        split; [ exact Hx | rewrite E; reflexivity ]. }
      rewrite Hnil in Hin. destruct Hin.
  - intros Hall.
    destruct (differenceBy k (VArr a) (VArr b)) as [| x rest] eqn:E; [ reflexivity | ].
    assert (Hin : In x (differenceBy k (VArr a) (VArr b))) by (rewrite E; left; reflexivity).
    apply differenceBy_In in Hin. destruct Hin as [Hx Hkeys].
    destruct (Hall x Hx) as (y & Hy & Heq).
    rewrite (Hkeys y Hy) in Heq. discriminate.
Qed.

Lemma strict_eq_string_refl (v : value) (a : string) :
  v = VStr a -> strict_eq v v = true.
Proof. intros ->. cbn. apply String.eqb_refl. Qed.

(** When the desired elements carry their action in an [action] field
    and name the same actions as the stored permissions, in any order
    and however often, both differences are empty. *)
Theorem reconciliation_idle_on_same_actions (stored desired : list value) :
  (forall x, In x stored -> exists a, property "action" x = VStr a) ->
  (forall y, In y desired -> exists a, property "action" y = VStr a) ->
  (forall v, In v (map_prop "action" stored) <-> In v (map_prop "action" desired)) ->
  differenceBy "action" (VArr stored) (VArr desired) = [] /\
  differenceBy "action" (VArr desired) (VArr stored) = [].
Proof.
  intros Hstored Hdesired Hsame. split; apply differenceBy_nil_iff; intros x Hx.
  - destruct (Hstored x Hx) as (a & Ha).
    assert (Hin : In (property "action" x) (map_prop "action" desired)).
    { apply Hsame. apply in_map. exact Hx. }
    apply in_map_iff in Hin. destruct Hin as (y & Hy & Hin).
    exists y. split; [ exact Hin | ].
    rewrite Hy. exact (strict_eq_string_refl _ a Ha).
  - destruct (Hdesired x Hx) as (a & Ha).
    assert (Hin : In (property "action" x) (map_prop "action" stored)).
    { apply Hsame. apply in_map. exact Hx. }
    apply in_map_iff in Hin. destruct Hin as (y & Hy & Hin).
    exists y. split; [ exact Hin | ].
    rewrite Hy. exact (strict_eq_string_refl _ a Ha).
Qed.

Lemma reconciliation_idle_on_same_actions_witness :
  differenceBy "action"
               (VArr [permission_row 10 "a" 1; permission_row 11 "b" 1])
               (action_objects ["b"; "a"; "b"]) = [] /\
  differenceBy "action"
               (action_objects ["b"; "a"; "b"])
               (VArr [permission_row 10 "a" 1; permission_row 11 "b" 1]) = [].
Proof.
  apply (reconciliation_idle_on_same_actions
           [permission_row 10 "a" 1; permission_row 11 "b" 1]
           [VObj [("action", VStr "b")]; VObj [("action", VStr "a")];
            VObj [("action", VStr "b")]]).
  - intros x [<- | [<- | []]]; eexists; reflexivity.
  - intros y [<- | [<- | [<- | []]]]; eexists; reflexivity.
  - intros v. cbn. tauto.
Defined.

Lemma index_key_not_action (i : nat) : String.eqb "action" (index_key i) = false.
Proof.
  unfold index_key. destruct (Nat.to_uint i); reflexivity.
Qed.

Lemma lookup_action_indexed {A} (f : A -> value) (l : list A) (i : nat) :
  lookup "action" (List.map (fun kv => (fst kv, f (snd kv))) (indexed i l)) = None.
Proof.
  revert i. induction l as [| x rest IH]; intros i; [ reflexivity | ].
  cbn [indexed List.map lookup fst snd]. rewrite index_key_not_action. apply IH.
Qed.

Lemma lookup_action_chars (s : string) (i : nat) :
  lookup "action" (indexed i (chars s)) = None.
Proof.
  revert i. induction s as [| c rest IH]; intros i; [ reflexivity | ].
  cbn [chars indexed lookup]. rewrite index_key_not_action. apply IH.
Qed.

Lemma action_of_string (a : string) : property "action" (VStr a) = VUndefined.
Proof.
  unfold property, get_prop. cbn [own_entries].
  rewrite lookup_action_chars. reflexivity.
Qed.

Lemma keys_of_action_strings (v : value) (actions : list string) :
  actions <> [] ->
  existsb (strict_eq v) (List.map (property "action") (List.map VStr actions))
  = strict_eq v VUndefined.
Proof.
  induction actions as [| a rest IH]; intros Hne; [ contradiction | ].
  cbn [List.map existsb]. rewrite action_of_string.
  destruct rest as [| b rest'].
  - cbn. apply orb_false_r.
  - rewrite IH by discriminate. apply orb_diag.
Qed.

(** A desired list of plain strings has no keys: every string has the
    key [undefined].  Against it every stored permission with a defined
    action is to be deleted, and every string is to be created unless
    some stored permission has an undefined action. *)
Theorem action_strings_have_no_key (actions : list string) (stored : list value) :
  actions <> [] ->
  differenceBy "action" (VArr stored) (strings actions)
  = List.filter (fun p => negb (strict_eq (property "action" p) VUndefined)) stored /\
  differenceBy "action" (strings actions) (VArr stored)
  = if List.existsb (fun p => strict_eq VUndefined (property "action" p)) stored
    then [] else List.map VStr actions.
Proof.
  intros Hne. unfold differenceBy, strings. cbn [as_array]. split.
  - apply filter_ext. intros p.
    rewrite (keys_of_action_strings _ actions Hne). reflexivity.
  - assert (Hkey : forall x, In x (List.map VStr actions) ->
                             property "action" x = VUndefined).
    { intros x Hx. apply in_map_iff in Hx. destruct Hx as (a & <- & _).
      apply action_of_string. }
    assert (Hex : existsb (fun p => strict_eq VUndefined (property "action" p)) stored
                  = existsb (strict_eq VUndefined) (List.map (property "action") stored)).
    { clear. induction stored as [| p rest IH]; [ reflexivity | ].
      cbn [List.map existsb]. rewrite IH. reflexivity. }
    rewrite Hex.
    destruct (existsb (strict_eq VUndefined) _) eqn:E.
    + induction (List.map VStr actions) as [| x rest IH]; [ reflexivity | ].
      cbn [filter]. rewrite (Hkey x (or_introl eq_refl)), E. cbn [negb].
      apply IH. intros y Hy. apply Hkey. right. exact Hy.
    + induction (List.map VStr actions) as [| x rest IH]; [ reflexivity | ].
      cbn [filter]. rewrite (Hkey x (or_introl eq_refl)), E. cbn [negb].
      f_equal. apply IH. intros y Hy. apply Hkey. right. exact Hy.
Qed.

Lemma action_strings_have_no_key_witness :
  differenceBy "action"
               (VArr [permission_row 10 "a" 1; permission_row 11 "b" 1])
               (strings ["a"; "b"])
  = [permission_row 10 "a" 1; permission_row 11 "b" 1] /\
  differenceBy "action" (strings ["a"; "b"])
               (VArr [permission_row 10 "a" 1; permission_row 11 "b" 1])
  = [VStr "a"; VStr "b"].
Proof.
  apply (action_strings_have_no_key
           ["a"; "b"] [permission_row 10 "a" 1; permission_row 11 "b" 1]).
  discriminate.
Defined.

(** ** The salt at start-up *)

Lemma checkSalt_configured {S} (h : call -> S -> res value * S) (s s' : S) (salt : value) :
  h (ConfigGet "admin.apiToken.salt") s = (Ok salt, s') ->
  truthy salt = true ->
  run h ApiToken.checkSaltIsDefined s
  = (Ok VUndefined, s', [ConfigGet "admin.apiToken.salt"]).
Proof.
  intros Hget Hsalt. unfold ApiToken.checkSaltIsDefined.
  rewrite run_bind, run_perform, Hget. cbn [fst snd]. rewrite Hsalt. reflexivity.
Qed.

Lemma checkSalt_legacy_run hmac (s : store) :
  truthy (configured_salt s) = false ->
  truthy (legacy_salt s) = true ->
  exists msg,
    run (strapi hmac) ApiToken.checkSaltIsDefined s =
    (Ok VUndefined,
     {| st_tokens := st_tokens s; st_permissions := st_permissions s;
        st_config := obj_set "admin.apiToken.salt" (legacy_salt s) (st_config s);
        st_env := st_env s;
        st_warnings := (st_warnings s ++ [msg])%list;
        st_entropy := st_entropy s;
        st_next_id := st_next_id s; st_clock := st_clock s |},
     [ConfigGet "admin.apiToken.salt"; EnvGet "API_TOKEN_SALT"; EmitWarning msg;
      EnvGet "API_TOKEN_SALT"; set_salt (legacy_salt s)]).
Proof.
  intros Hsalt Hlegacy.
  eexists. unfold ApiToken.checkSaltIsDefined, perform. cbn [bind run strapi].
  fold (configured_salt s). rewrite Hsalt.
  cbn [bind run strapi]. fold (legacy_salt s). rewrite Hlegacy.
  cbn [bind run strapi st_env]. fold (legacy_salt s). reflexivity.
Qed.

(** Without a configured salt but with [API_TOKEN_SALT] in the
    environment, [checkSaltIsDefined] succeeds, configures the
    environment's salt, emits one warning and touches no token or
    permission; run again, it only reads the configuration. *)
Theorem checkSalt_legacy_fallback hmac (s : store) :
  truthy (configured_salt s) = false ->
  truthy (legacy_salt s) = true ->
  let s' := final (strapi hmac) ApiToken.checkSaltIsDefined s in
  outcome (strapi hmac) ApiToken.checkSaltIsDefined s = Ok VUndefined /\
  configured_salt s' = legacy_salt s /\
  List.length (st_warnings s') = Datatypes.S (List.length (st_warnings s)) /\
  st_tokens s' = st_tokens s /\
  st_permissions s' = st_permissions s /\
  run (strapi hmac) ApiToken.checkSaltIsDefined s'
  = (Ok VUndefined, s', [ConfigGet "admin.apiToken.salt"]).
Proof.
  intros Hsalt Hlegacy s'.
  destruct (checkSalt_legacy_run hmac s Hsalt Hlegacy) as (msg & Hrun).
  assert (Hconf : configured_salt s' = legacy_salt s).
  { unfold s', final. rewrite Hrun. unfold configured_salt. cbn [fst snd st_config].
    rewrite lookup_obj_set_same. reflexivity. }
  unfold outcome. fold s'.
  repeat split.
  - rewrite Hrun. reflexivity.
  - exact Hconf.
  - unfold s', final. rewrite Hrun. cbn [fst snd st_warnings].
    rewrite length_app. cbn. lia.
  - unfold s', final. rewrite Hrun. reflexivity.
  - unfold s', final. rewrite Hrun. reflexivity.
  - apply (checkSalt_configured (strapi hmac) s' s' (configured_salt s')).
    + reflexivity.
    + rewrite Hconf. exact Hlegacy.
Qed.

Lemma checkSalt_legacy_fallback_witness :
  configured_salt (final sample_strapi ApiToken.checkSaltIsDefined legacy_store)
  = VStr "old-salt".
Proof.
  apply (checkSalt_legacy_fallback symbolic_hmac legacy_store eq_refl eq_refl).
Defined.

(** After [checkSaltIsDefined], [hash] works under the configured salt,
    or under the one of the environment when none was configured. *)
Theorem salt_check_then_hash hmac (s : store) (salt secret : string) :
  js_or (configured_salt s) (legacy_salt s) = VStr salt ->
  salt <> "" ->
  outcome (strapi hmac)
          (bind ApiToken.checkSaltIsDefined (fun _ => ApiToken.hash (VStr secret))) s
  = Ok (VStr (hmac salt secret)).
Proof.
  intros Hsalt Hne.
  assert (Htruthy : truthy (VStr salt) = true).
  { cbn. destruct (String.eqb salt "") eqn:E; [ | reflexivity ].
    apply String.eqb_eq in E. contradiction. }
  rewrite outcome_bind.
  unfold js_or in Hsalt.
  destruct (truthy (configured_salt s)) eqn:Hconf.
  - unfold outcome at 1, final.
    rewrite (checkSalt_configured (strapi hmac) s s (configured_salt s) eq_refl Hconf).
    cbn [fst snd]. unfold outcome. rewrite hash_run, Hsalt. reflexivity.
  - assert (Hlegacy : truthy (legacy_salt s) = true) by (rewrite Hsalt; exact Htruthy).
    destruct (checkSalt_legacy_run hmac s Hconf Hlegacy) as (msg & Hrun).
    unfold outcome at 1, final. rewrite Hrun. cbn [fst snd].
    unfold outcome. rewrite hash_run. unfold configured_salt at 1 2.
    cbn [st_config]. rewrite lookup_obj_set_same, Hsalt. reflexivity.
Qed.

Lemma salt_check_then_hash_witness :
  outcome sample_strapi
          (bind ApiToken.checkSaltIsDefined (fun _ => ApiToken.hash (VStr "k1")))
          legacy_store
  = Ok (VStr (symbolic_hmac "old-salt" "k1")).
Proof.
  apply (salt_check_then_hash symbolic_hmac legacy_store "old-salt" "k1").
  - reflexivity.
  - discriminate.
Defined.


(** ** Lookups without criteria *)

Section GetByEdges.
Context {S : Type} (h : call -> S -> res value * S).

(** Against any collaborators: [getBy(null)] throws a TypeError, and
    any other criteria are looked up, with the one [findOne] call, exactly
    when they have an own enumerable property; otherwise the answer is
    [null] and nothing is asked.  So [undefined], numbers, booleans and
    the empty string are answered [null] like [{}]. *)
Theorem getBy_asks_iff_criteria_has_fields (s : S) (whereParams : value) :
  run h (ApiToken.getBy VNull) s
  = (Err (TypeError "Cannot convert undefined or null to object"), s, []) /\
  (whereParams <> VNull ->
   run h (ApiToken.getBy whereParams) s =
   match own_entries whereParams with
   | [] => (Ok VNull, s, [])
   | _ :: _ => (fst (h (find_one whereParams) s),
                snd (h (find_one whereParams) s),
                [find_one whereParams])
   end).
Proof.
  split; [ reflexivity | ].
  intros Hnull. unfold ApiToken.getBy.
  destruct whereParams as [ | | b | n | str | items | fields ];
    try contradiction; cbn [ApiToken.default_param].
  - reflexivity.
  - reflexivity.
  - reflexivity.
  - cbn [object_keys lift bind]. destruct (own_entries (VStr str)); cbn [List.map List.length Nat.eqb].
    + reflexivity.
    + apply run_perform.
  - cbn [object_keys lift bind]. destruct (own_entries (VArr items)); cbn [List.map List.length Nat.eqb].
    + reflexivity.
    + apply run_perform.
  - cbn [object_keys lift bind]. destruct (own_entries (VObj fields)) eqn:E; cbn [List.map List.length Nat.eqb].
    + reflexivity.
    + apply run_perform.
Qed.
End GetByEdges.

(** ** Failures half-way *)

Lemma map_res_nullish (id : value) (l : list value) :
  List.existsb nullish l = true ->
  exists msg,
    map_res (fun p => res_bind (get_prop p "action") (fun action =>
                      Ok (VObj [("action", action); ("token", id)]))) l
    = Err (TypeError msg).
Proof.
  induction l as [| p rest IH]; cbn [existsb]; [ discriminate | ].
  intros H. cbn [map_res].
  destruct (nullish p) eqn:Hp.
  - destruct p; try discriminate; eexists; reflexivity.
  - rewrite (get_prop_not_nullish p "action" Hp). cbn [res_bind].
    destruct (IH H) as (msg & ->). exists msg. reflexivity.
Qed.

(** A [null] or [undefined] element among those to create makes
    [update] fail with a TypeError when the rows to create are built,
    which is after the deletion was performed: the token keeps only the
    permissions that survived it. *)
Theorem update_fails_after_deleting hmac (s s1 s2 : store) (id old token : value)
      (fields : list (string * value)) :
  strapi hmac (find_by_id id) s = (Ok old, s1) ->
  truthy old = true ->
  ApiToken.assertCustomTokenPermissionsValidity
    (VObj (obj_set "type"
             (js_or (property "type" (VObj fields)) (property "type" old))
             fields)) = Ok tt ->
  strapi hmac (update_token id (VObj (without_permissions fields))) s1
  = (Ok token, s2) ->
  property "type" token = VStr "custom" ->
  let stored := property "permissions" token in
  let desired := property "permissions" (VObj fields) in
  let deleted := map_prop "action" (differenceBy "action" stored desired) in
  List.existsb nullish (differenceBy "action" desired stored) = true ->
  exists msg,
    run (strapi hmac) (ApiToken.update id (VObj fields)) s =
    (Err (TypeError msg),
     reconciled s2 deleted [],
     [find_by_id id;
      update_token id (VObj (without_permissions fields));
      delete_many deleted]).
Proof.
  intros Hfind Hold Hvalid Hupdate Htype stored desired deleted Hnull.
  assert (Htoken : nullish token = false).
  { destruct token; try reflexivity; discriminate Htype. }
  destruct (map_res_nullish id _ Hnull) as (msg & Hmap).
  exists msg.
  rewrite (update_run_prefix (strapi hmac) s s1 s2 id old token fields
             Hfind Hold Hvalid Hupdate).
  unfold after_write.
  rewrite run_bind, run_lift, (get_prop_not_nullish token "type" Htoken), Htype.
  change (strict_eq (VStr "custom") (VStr "custom")) with true. cbn iota.
  rewrite run_bind, run_bind, run_lift.
  rewrite (get_prop_not_nullish token "permissions" Htoken).
  rewrite run_bind, run_lift, get_prop_object.
  fold stored desired.
  rewrite run_bind, run_perform.
  fold deleted. fold (delete_many deleted).
  rewrite delete_many_answer. cbn [fst snd].
  rewrite run_bind, run_lift.
  unfold array_map. rewrite Hmap. cbn [res_bind fst snd prepend app].
  unfold reconciled. cbn [number_rows List.length Z.of_nat].
  destruct s2; cbn. rewrite app_nil_r, Z.add_0_r. reflexivity.
Qed.

Lemma update_fails_after_deleting_witness :
  exists msg,
    run sample_strapi
        (ApiToken.update (VNum 1)
           (VObj [("permissions", VArr [VObj [("action", VStr "b")]; VNull])]))
        sample_store
    = (Err (TypeError msg),
       with_permissions sample_store [permission_row 11 "b" 1],
       [find_by_id (VNum 1);
        update_token (VNum 1) (VObj []);
        delete_many [VStr "a"]]).
Proof.
  apply (update_fails_after_deleting
           symbolic_hmac sample_store sample_store
           (snd (sample_strapi (update_token (VNum 1) (VObj [])) sample_store))
           (VNum 1) (token_row 1 "t" "custom" "d1")
           (answer (sample_strapi (update_token (VNum 1) (VObj [])) sample_store))
           [("permissions", VArr [VObj [("action", VStr "b")]; VNull])]
           eq_refl eq_refl eq_refl eq_refl eq_refl eq_refl).
Defined.

(** A custom [create] whose [permissions] is present but no array
    passes the validation, writes the token, and only then fails with a
    TypeError on [permissions.map]: the token row stays, without
    permissions. *)
Theorem create_custom_without_array hmac (s : store) (fields : list (string * value))
        (key salt : string) (rest : list string) :
  st_entropy s = key :: rest ->
  configured_salt s = VStr salt ->
  property "type" (VObj fields) = VStr "custom" ->
  permissions_present (VObj fields) = true ->
  as_array (property "permissions" (VObj fields)) = None ->
  let r := run (strapi hmac) (ApiToken.create (VObj fields)) s in
  fst (fst r) = Err (TypeError "map is not a function") /\
  snd r = [RandomBytesHex 128;
           ConfigGet "admin.apiToken.salt";
           HmacHex "sha512" (VStr salt) (VStr key);
           create_token (VObj (obj_set "accessKey" (VStr (hmac salt key))
                                       (without_permissions fields)))] /\
  List.length (st_tokens (snd (fst r))) = Datatypes.S (List.length (st_tokens s)).
Proof.
  intros Hentropy Hsalt Htype Hpresent Harray r. subst r.
  unfold permissions_present in Hpresent.
  unfold ApiToken.create.
  rewrite run_bind, run_perform.
  cbn [strapi]. rewrite Hentropy. cbn [fst snd].
  set (s1 := Build_store _ _ _ _ _ _ _ _).
  rewrite run_bind, run_lift.
  rewrite assert_verdict, Htype, Hpresent.
  change (strict_eq (VStr "custom") (VStr "custom")) with true.
  cbn [negb andb].
  rewrite run_bind, hash_run.
  change (configured_salt s1) with (configured_salt s). rewrite Hsalt.
  cbn [strapi fst snd].
  rewrite run_bind, run_perform.
  change (own_entries (omit "permissions" (VObj fields)))
    with (without_permissions fields).
  fold (create_token (VObj (obj_set "accessKey" (VStr (hmac salt key))
                                    (without_permissions fields)))).
  assert (Htokens : List.length (st_tokens (snd (strapi hmac (create_token (VObj
            (obj_set "accessKey" (VStr (hmac salt key)) (without_permissions fields)))) s1)))
          = Datatypes.S (List.length (st_tokens s))).
  { cbn. rewrite length_app. cbn. lia. }
  destruct (create_token_answer hmac
              (VObj (obj_set "accessKey" (VStr (hmac salt key))
                             (without_permissions fields))) s1)
    as (apiToken & s2 & Hcreate & _).
  rewrite Hcreate in *. cbn [fst snd] in *.
  rewrite run_bind, run_lift, get_prop_object, Htype.
  change (strict_eq (VStr "custom") (VStr "custom")) with true.
  cbn iota.
  rewrite run_bind, run_lift, get_prop_object.
  rewrite run_bind, run_lift.
  assert (Hmap : forall f, array_map f (property "permissions" (VObj fields))
                           = Err (TypeError "map is not a function")).
  { intros f. destruct (property "permissions" (VObj fields));
      try discriminate; reflexivity. }
  rewrite Hmap. cbn. repeat split. exact Htokens.
Qed.

Lemma create_custom_without_array_witness :
  let r := run sample_strapi
               (ApiToken.create
                  (VObj [("type", VStr "custom"); ("name", VStr "n");
                         ("permissions", VStr "a")]))
               sample_store in
  fst (fst r) = Err (TypeError "map is not a function") /\
  List.length (st_tokens (snd (fst r))) = 4%nat.
Proof.
  cbv zeta.
  destruct (create_custom_without_array
              symbolic_hmac sample_store
              [("type", VStr "custom"); ("name", VStr "n");
               ("permissions", VStr "a")]
              "k1" "salt" ["k2"] eq_refl eq_refl eq_refl eq_refl eq_refl)
    as (Herr & _ & Hlen).
  split; [ exact Herr | exact Hlen ].
Defined.

(** Against any collaborators, the [accessKey] of a [create] response is
    the secret that was generated, whatever record the store answered. *)
Theorem create_response_carries_the_secret
        {S : Type} (h : call -> S -> res value * S) (s s1 : S)
        (attributes key v : value) :
  h (RandomBytesHex 128) s = (Ok key, s1) ->
  outcome h (ApiToken.create attributes) s = Ok v ->
  property "accessKey" v = key.
Proof.
  intros Hkey H. unfold ApiToken.create in H. follow_run H.
  all: match goal with
       | Hr : outcome _ (perform (RandomBytesHex _)) _ = Ok _ |- _ =>
           rewrite outcome_perform, Hkey in Hr; injection Hr as <-
       end; subst v.
  - rewrite (property_obj_set_other "permissions" "accessKey") by reflexivity.
    apply property_obj_set_same.
  - apply property_obj_set_same.
Qed.

Lemma create_response_carries_the_secret_witness :
  property "accessKey"
           (value_of (outcome sample_strapi
                        (ApiToken.create
                           (VObj [("type", VStr "read-only"); ("name", VStr "n")]))
                        sample_store))
  = VStr "k1".
Proof.
  apply (create_response_carries_the_secret
           sample_strapi sample_store
           (snd (sample_strapi (RandomBytesHex 128) sample_store))
           (VObj [("type", VStr "read-only"); ("name", VStr "n")])
           (VStr "k1") _ eq_refl eq_refl).
Defined.
